(** * llama-cli: the llama.cpp protocol adapter

    A shallow embedding of the adapter core of the repository:

    - [packages/core/src/core/llamacppClient.ts]: model discovery
      ([initialize], [extractModelName]) and the streaming tool-call
      assembler of [chatCompletionStream],
    - the tool conversion module ([convertGeminiFunctionCallToOpenAI],
      [convertOpenAIToolCallToGemini]),
    - the content generator built by [createLlamaCppContentGenerator]
      ([countTokens]),

    together with the part of the JavaScript runtime those functions call
    ([JSON.parse], [JSON.stringify], [String.prototype.trim], [split], ...).

    Conventions.  A JavaScript string is a [string]: a sequence of code units
    below 256.  An optional field ([x?: T], or a field that may be [null]) is
    an [option].  The numbers inside JSON values are the integers JavaScript
    holds exactly and prints in decimal, as [Z]; fractions and exponents are
    outside the model.  [console.warn] is modelled where a claim speaks of
    it, as the count of warnings of a streaming call. *)

From Stdlib Require Import List String Ascii ZArith NArith Lia Bool.
From Stdlib Require Import DecimalString DecimalFacts DecimalPos DecimalZ.
Import ListNotations.

Local Open Scope list_scope.
Local Open Scope string_scope.

(* ================================================================= *)
(** ** JavaScript strings *)

Module JsString.

(** The double quote, written by its code so that no literal has to
    contain it. *)
Definition dquote : ascii := "034"%char.
Definition backslash : ascii := "092"%char.
Definition newline : ascii := "010"%char.

(** Truthiness of a string: every string but the empty one. *)
Definition truthy (s : string) : bool :=
  match s with
  | EmptyString => false
  | String _ _ => true
  end.

(** Truthiness of an optional string field: [undefined], [null] and the empty
    string are falsy. *)
Definition truthy_opt (o : option string) : bool :=
  match o with
  | Some s => truthy s
  | None => false
  end.

(** [a || b] on optional strings whose right operand is a string. *)
Definition or_else (o : option string) (d : string) : string :=
  match o with
  | Some s => if truthy s then s else d
  | None => d
  end.

(** White space and line terminators removed by [trim], among the code
    units below 256: TAB, LF, VT, FF, CR, SPACE and NBSP. *)
Definition is_trim_space (c : ascii) : bool :=
  match N_of_ascii c with
  | 9%N | 10%N | 11%N | 12%N | 13%N | 32%N | 160%N => true
  | _ => false
  end.

Fixpoint trimStart (s : string) : string :=
  match s with
  | EmptyString => EmptyString
  | String c s' => if is_trim_space c then trimStart s' else s
  end.

(** [trimEnd] keeps a character when it is no space or when something
    survives behind it. *)
Fixpoint trimEnd (s : string) : string :=
  match s with
  | EmptyString => EmptyString
  | String c s' =>
      match trimEnd s' with
      | EmptyString => if is_trim_space c then EmptyString else String c EmptyString
      | t => String c t
      end
  end.

(** [s.trim()] *)
Definition trim (s : string) : string := trimEnd (trimStart s).

(** What follows the prefix [p] in [s], when [s] starts with [p]. *)
Fixpoint strip_prefix (p s : string) : option string :=
  match p with
  | EmptyString => Some s
  | String c p' =>
      match s with
      | EmptyString => None
      | String d s' => if Ascii.eqb c d then strip_prefix p' s' else None
      end
  end.

(** [s.startsWith(p)] *)
Definition startsWith (s p : string) : bool :=
  match strip_prefix p s with
  | Some _ => true
  | None => false
  end.

(** [s.slice(n)] for [0 <= n]. *)
Fixpoint slice (n : nat) (s : string) : string :=
  match n, s with
  | O, _ => s
  | S n', String _ s' => slice n' s'
  | S _, EmptyString => EmptyString
  end.

(** [s.endsWith(p)] *)
Definition endsWith (s p : string) : bool :=
  (String.length p <=? String.length s)%nat &&
  String.eqb (slice (String.length s - String.length p) s) p.

(** [s.split(sep)] for a one-character separator: the pieces between the
    separators, never an empty array.  The current piece is accumulated in
    [cur]. *)
Fixpoint split_from (sep : ascii) (s : string) : string * list string :=
  match s with
  | EmptyString => (EmptyString, [])
  | String c s' =>
      let '(cur, rest) := split_from sep s' in
      if Ascii.eqb c sep then (EmptyString, cur :: rest)
      else (String c cur, rest)
  end.

Definition split (sep : ascii) (s : string) : list string :=
  let '(cur, rest) := split_from sep s in cur :: rest.

(** [parts.join(sep)] *)
Fixpoint join (sep : string) (parts : list string) : string :=
  match parts with
  | [] => EmptyString
  | [p] => p
  | p :: ps => p ++ sep ++ join sep ps
  end.

(** [s.replace(/<suffix>$/, '')] for a literal suffix: the suffix is removed
    once when the string ends with it. *)
Definition remove_suffix (suffix s : string) : string :=
  if endsWith s suffix
  then String.substring 0 (String.length s - String.length suffix) s
  else s.

(** Does the character occur in the string? *)
Fixpoint contains (c : ascii) (s : string) : bool :=
  match s with
  | EmptyString => false
  | String d s' => Ascii.eqb d c || contains c s'
  end.

End JsString.

(* ================================================================= *)
(** ** JSON values, [JSON.stringify] and [JSON.parse] *)

Module Json.

Import JsString.

(** A JSON value.  An object is the list of its properties in enumeration
    order; a JavaScript object has no two properties of the same name. *)
Unset Elimination Schemes.
Inductive json : Type :=
| JNull
| JBool (b : bool)
| JNum (n : Z)
| JStr (s : string)
| JArr (elems : list json)
| JObj (members : list (string * json)).
Set Elimination Schemes.

(** Induction on a JSON value, with the hypothesis on every element of an
    array and every property value of an object. *)
Definition json_ind (P : json -> Prop)
  (Hnull : P JNull)
  (Hbool : forall b, P (JBool b))
  (Hnum : forall n, P (JNum n))
  (Hstr : forall s, P (JStr s))
  (Harr : forall elems, Forall P elems -> P (JArr elems))
  (Hobj : forall members, Forall (fun kv => P (snd kv)) members -> P (JObj members)) :
  forall v, P v :=
  fix go (v : json) : P v :=
    match v with
    | JNull => Hnull
    | JBool b => Hbool b
    | JNum n => Hnum n
    | JStr s => Hstr s
    | JArr elems =>
        Harr elems
          ((fix all (l : list json) : Forall P l :=
              match l with
              | [] => Forall_nil P
              | x :: l' => Forall_cons x (go x) (all l')
              end) elems)
    | JObj members =>
        Hobj members
          ((fix all (l : list (string * json)) : Forall (fun kv => P (snd kv)) l :=
              match l with
              | [] => Forall_nil _
              | kv :: l' => Forall_cons kv (go (snd kv)) (all l')
              end) members)
    end.

(** Truthiness of a JSON value: [null], [false], [0] and the empty string
    are falsy. *)
Definition truthy (v : json) : bool :=
  match v with
  | JNull => false
  | JBool b => b
  | JNum n => negb (n =? 0)%Z
  | JStr s => JsString.truthy s
  | JArr _ => true
  | JObj _ => true
  end.

(** *** [JSON.stringify] (no indentation) *)

Definition hex_digit (n : N) : ascii :=
  match n with
  | 0%N => "0" | 1%N => "1" | 2%N => "2" | 3%N => "3" | 4%N => "4"
  | 5%N => "5" | 6%N => "6" | 7%N => "7" | 8%N => "8" | 9%N => "9"
  | 10%N => "a" | 11%N => "b" | 12%N => "c" | 13%N => "d" | 14%N => "e"
  | _ => "f"
  end%char.

(** QuoteJSONString on one code unit: the short escapes, [\u00XX] for the
    other control characters, the character itself otherwise. *)
Definition escape_char (c : ascii) : string :=
  match N_of_ascii c with
  | 8%N => "\b"
  | 9%N => "\t"
  | 10%N => "\n"
  | 12%N => "\f"
  | 13%N => "\r"
  | 34%N => String backslash (String dquote EmptyString)
  | 92%N => "\\"
  | n => if (n <? 32)%N
         then "\u00" ++ String (hex_digit (n / 16)) (String (hex_digit (n mod 16)) EmptyString)
         else String c EmptyString
  end.

Fixpoint escape (s : string) : string :=
  match s with
  | EmptyString => EmptyString
  | String c s' => escape_char c ++ escape s'
  end.

Definition quote (s : string) : string :=
  String dquote (escape s ++ String dquote EmptyString).

(** Number::toString on an integer. *)
Definition number_to_string (n : Z) : string :=
  NilEmpty.string_of_int (Z.to_int n).

(** [JSON.stringify(v)]: the elements of an array and the properties of an
    object are joined with commas. *)
Fixpoint stringify (v : json) : string :=
  match v with
  | JNull => "null"
  | JBool true => "true"
  | JBool false => "false"
  | JNum n => number_to_string n
  | JStr s => quote s
  | JArr elems => "[" ++ join "," (map stringify elems) ++ "]"
  | JObj members =>
      "{" ++ join "," (map (fun kv => quote (fst kv) ++ ":" ++ stringify (snd kv)) members) ++ "}"
  end.

(** *** [JSON.parse] *)

(** JSON white space: TAB, LF, CR and SPACE. *)
Definition is_ws (c : ascii) : bool :=
  match N_of_ascii c with
  | 9%N | 10%N | 13%N | 32%N => true
  | _ => false
  end.

Fixpoint skip_ws (s : string) : string :=
  match s with
  | EmptyString => EmptyString
  | String c s' => if is_ws c then skip_ws s' else s
  end.

Definition hex_value (c : ascii) : option N :=
  let n := N_of_ascii c in
  if ((48 <=? n) && (n <=? 57))%N then Some (n - 48)%N
  else if ((97 <=? n) && (n <=? 102))%N then Some (n - 87)%N
  else if ((65 <=? n) && (n <=? 70))%N then Some (n - 55)%N
  else None.

Definition hex4 (a b c d : ascii) : option N :=
  match hex_value a, hex_value b, hex_value c, hex_value d with
  | Some x, Some y, Some z, Some w => Some (((x * 16 + y) * 16 + z) * 16 + w)%N
  | _, _, _, _ => None
  end.

(** The character an escape letter stands for. *)
Definition unescape (e : ascii) : option ascii :=
  match N_of_ascii e with
  | 34%N => Some dquote
  | 92%N => Some backslash
  | 47%N => Some "/"%char
  | 98%N => Some "008"%char
  | 102%N => Some "012"%char
  | 110%N => Some "010"%char
  | 114%N => Some "013"%char
  | 116%N => Some "009"%char
  | _ => None
  end.

Definition cons_char (c : ascii) (r : option (string * string)) : option (string * string) :=
  match r with
  | Some (s, rest) => Some (String c s, rest)
  | None => None
  end.

(** The characters of a string literal after its opening quote, up to and
    including the closing quote.  A raw control character is a syntax
    error; an escape above [ÿ] names a code unit outside the model. *)
Fixpoint parse_string_body (s : string) : option (string * string) :=
  match s with
  | EmptyString => None
  | String c s' =>
      if Ascii.eqb c dquote then Some (EmptyString, s')
      else if Ascii.eqb c backslash then
        match s' with
        | EmptyString => None
        | String e s'' =>
            if Ascii.eqb e "u" then
              match s'' with
              | String h1 (String h2 (String h3 (String h4 r))) =>
                  match hex4 h1 h2 h3 h4 with
                  | Some n => if (n <? 256)%N
                              then cons_char (ascii_of_N n) (parse_string_body r)
                              else None
                  | None => None
                  end
              | _ => None
              end
            else
              match unescape e with
              | Some x => cons_char x (parse_string_body s'')
              | None => None
              end
        end
      else if (N_of_ascii c <? 32)%N then None
      else cons_char c (parse_string_body s')
  end.

Definition digit_of (c : ascii) : option (Decimal.uint -> Decimal.uint) :=
  match c with
  | "0" => Some Decimal.D0 | "1" => Some Decimal.D1 | "2" => Some Decimal.D2
  | "3" => Some Decimal.D3 | "4" => Some Decimal.D4 | "5" => Some Decimal.D5
  | "6" => Some Decimal.D6 | "7" => Some Decimal.D7 | "8" => Some Decimal.D8
  | "9" => Some Decimal.D9
  | _ => None
  end%char.

(** The longest run of decimal digits at the head of the string. *)
Fixpoint read_digits (s : string) : Decimal.uint * string :=
  match s with
  | EmptyString => (Decimal.Nil, EmptyString)
  | String c s' =>
      match digit_of c with
      | Some d => let '(u, rest) := read_digits s' in (d u, rest)
      | None => (Decimal.Nil, s)
      end
  end.

(** An unsigned integer numeral: at least one digit, no leading zero. *)
Definition parse_unsigned (s : string) : option (Z * string) :=
  match read_digits s with
  | (Decimal.Nil, _) => None
  | (Decimal.D0 Decimal.Nil, rest) => Some (0%Z, rest)
  | (Decimal.D0 _, _) => None
  | (u, rest) => Some (Z.of_uint u, rest)
  end.

Definition parse_number (s : string) : option (Z * string) :=
  match s with
  | String "-" s' =>
      match parse_unsigned s' with
      | Some (n, rest) => Some ((- n)%Z, rest)
      | None => None
      end
  | _ => parse_unsigned s
  end.

Definition parse_literal (lit : string) (v : json) (s : string) : option (json * string) :=
  match strip_prefix lit s with
  | Some rest => Some (v, rest)
  | None => None
  end.

(** Defining a property: the value of an existing property is replaced in
    place, a new property comes last. *)
Fixpoint obj_set (k : string) (v : json) (o : list (string * json)) : list (string * json) :=
  match o with
  | [] => [(k, v)]
  | (k', v') :: o' =>
      if String.eqb k' k then (k', v) :: o' else (k', v') :: obj_set k v o'
  end.

Definition build_object (members : list (string * json)) : list (string * json) :=
  fold_left (fun o kv => obj_set (fst kv) (snd kv) o) members [].

(** Recursive descent, bounded by [fuel]; every call that spends fuel has
    read a character since the call before it, so the length of the text
    (plus one) is always enough. *)
Fixpoint parse_value (fuel : nat) (s : string) {struct fuel} : option (json * string) :=
  match fuel with
  | O => None
  | S fuel' =>
      match skip_ws s with
      | EmptyString => None
      | String c r =>
          if Ascii.eqb c "n" then parse_literal "null" JNull (String c r)
          else if Ascii.eqb c "t" then parse_literal "true" (JBool true) (String c r)
          else if Ascii.eqb c "f" then parse_literal "false" (JBool false) (String c r)
          else if Ascii.eqb c dquote then
            match parse_string_body r with
            | Some (str, rest) => Some (JStr str, rest)
            | None => None
            end
          else if Ascii.eqb c "[" then
            match skip_ws r with
            | EmptyString => None
            | String c' r' =>
                if Ascii.eqb c' "]" then Some (JArr [], r')
                else
                  match parse_elements fuel' r with
                  | Some (elems, rest) => Some (JArr elems, rest)
                  | None => None
                  end
            end
          else if Ascii.eqb c "{" then
            match skip_ws r with
            | EmptyString => None
            | String c' r' =>
                if Ascii.eqb c' "}" then Some (JObj [], r')
                else
                  match parse_members fuel' r with
                  | Some (members, rest) => Some (JObj (build_object members), rest)
                  | None => None
                  end
            end
          else
            match parse_number (String c r) with
            | Some (n, rest) => Some (JNum n, rest)
            | None => None
            end
      end
  end

with parse_elements (fuel : nat) (s : string) {struct fuel} : option (list json * string) :=
  match fuel with
  | O => None
  | S fuel' =>
      match parse_value fuel' s with
      | None => None
      | Some (v, r) =>
          match skip_ws r with
          | EmptyString => None
          | String c r' =>
              if Ascii.eqb c "," then
                match parse_elements fuel' r' with
                | Some (vs, rest) => Some (v :: vs, rest)
                | None => None
                end
              else if Ascii.eqb c "]" then Some ([v], r')
              else None
          end
      end
  end

with parse_members (fuel : nat) (s : string) {struct fuel} : option (list (string * json) * string) :=
  match fuel with
  | O => None
  | S fuel' =>
      match skip_ws s with
      | EmptyString => None
      | String q r =>
          if Ascii.eqb q dquote then
            match parse_string_body r with
            | None => None
            | Some (k, r1) =>
                match skip_ws r1 with
                | EmptyString => None
                | String colon r2 =>
                    if Ascii.eqb colon ":" then
                      match parse_value fuel' r2 with
                      | None => None
                      | Some (v, r3) =>
                          match skip_ws r3 with
                          | EmptyString => None
                          | String c r4 =>
                              if Ascii.eqb c "," then
                                match parse_members fuel' r4 with
                                | Some (ms, rest) => Some ((k, v) :: ms, rest)
                                | None => None
                                end
                              else if Ascii.eqb c "}" then Some ([(k, v)], r4)
                              else None
                          end
                      end
                    else None
                end
            end
          else None
      end
  end.

(** [JSON.parse(text)]: [None] stands for the [SyntaxError] it throws.
    The values of the model have integer numbers and code units below 256,
    so a text with a fraction, an exponent or an escape above [\u00ff] has
    no value here.  The theorems depend on what [parse] answers for two
    kinds of text only, on which it answers as [JSON.parse] does: the texts
    [stringify] renders, and texts that are not syntactically closed. *)
Definition parse (text : string) : option json :=
  match parse_value (S (String.length text)) text with
  | Some (v, rest) =>
      match skip_ws rest with
      | EmptyString => Some v
      | String _ _ => None
      end
  | None => None
  end.

End Json.


(* ================================================================= *)
(** ** Wire schema ([openaiTypes.ts]) *)

Module OpenAI.

(** [OpenAIToolCall]: [{ id, type: 'function', function: { name, arguments } }]. *)
Record FunctionPart : Type := { name : string; arguments : string }.

Record OpenAIToolCall : Type := {
  id : string;
  type : string;
  function : FunctionPart
}.

(** The models list: of [LlamaCppModel] only [name] is read, of
    [OpenAIModel] only [id]. *)
Record LlamaCppModel : Type := { model_name : string }.
Record OpenAIModel : Type := { model_id : string }.

Record LlamaCppModelsResponse : Type := {
  models : option (list LlamaCppModel);
  data : option (list OpenAIModel)
}.

End OpenAI.

(** A streaming chunk as [chatCompletionStream] reads it:
    [choices[0].delta] with an optional [content] and optional [tool_calls],
    each tool-call delta with an optional [index], [id] and
    [function.name] / [function.arguments] fragments. *)
Module Chunk.

Record FunctionDelta : Type := {
  name : option string;
  arguments : option string
}.

Record ToolCallDelta : Type := {
  index : option Z;
  id : option string;
  function : option FunctionDelta
}.

Record Delta : Type := {
  content : option string;
  tool_calls : option (list ToolCallDelta)
}.

Record Choice : Type := { delta : option Delta }.

Record OpenAIChatCompletionResponse : Type := { choices : list Choice }.

End Chunk.

(* ================================================================= *)
(** ** Schema translator (the tool conversion module) *)

Module ToolConversion.

Import Json OpenAI.

(** [FunctionCall] of [@google/genai] as the translator uses it:
    [{ id?, name, args? }], where [args] is a [Record<string, unknown>] and,
    when it comes out of [convertOpenAIToolCallToGemini], whatever
    [JSON.parse] returned. *)
Record FunctionCall : Type := {
  fc_id : option string;
  fc_name : string;
  fc_args : option json
}.

(** [functionCall.args || {}] *)
Definition args_or_empty (args : option json) : json :=
  match args with
  | Some v => if Json.truthy v then v else JObj []
  | None => JObj []
  end.

(** [generated] is the identifier [generateToolCallId()] returns at this
    call (time based with a random suffix). *)
Definition convertGeminiFunctionCallToOpenAI
  (generated : string) (functionCall : FunctionCall) (callId : option string)
  : OpenAIToolCall :=
  {| id := JsString.or_else callId (JsString.or_else (fc_id functionCall) generated);
     type := "function";
     function := {| name := fc_name functionCall;
                    arguments := Json.stringify (args_or_empty (fc_args functionCall)) |} |}.

(** [args] starts as the empty object and is replaced when the arguments
    parse; the parse error is only logged.  What is derived from a text is
    what [Json.parse] answers for it: see there for the texts on which the
    theorems rely on that answer. *)
Definition convertOpenAIToolCallToGemini (toolCall : OpenAIToolCall) : FunctionCall :=
  let args :=
    match Json.parse (arguments (function toolCall)) with
    | Some v => v
    | None => JObj []
    end in
  {| fc_id := Some (id toolCall);
     fc_name := name (function toolCall);
     fc_args := Some args |}.

Definition convertOpenAIToolCallsToGemini (toolCalls : list OpenAIToolCall) : list FunctionCall :=
  map convertOpenAIToolCallToGemini toolCalls.

End ToolConversion.

(* ================================================================= *)
(** ** Protocol adapter client ([llamacppClient.ts]) *)

Module LlamaCppClient.

Import JsString OpenAI.

(** The fields of a [LlamaCppClient] instance. *)
Record Client : Type := {
  baseUrl : string;
  model : string;
  displayName : string
}.

(** [new LlamaCppClient(baseUrl)]: one trailing slash is removed. *)
Definition constructor (url : string) : Client :=
  {| baseUrl := remove_suffix "/" url; model := ""; displayName := "llama.cpp" |}.

(** What a call throws: an [Error] made by the client with its message, or
    the value a rejected [fetch] or [response.json()] carries. *)
Inductive Thrown : Type :=
| Error (message : string)
| Rejected (reason : string).

(** *** Model discovery *)

(** The HTTP response of [GET /v1/models] as [initialize] reads it. *)
Record ModelsResponse : Type := {
  models_ok : bool;
  models_status : Z;
  models_statusText : string;
  models_json : Thrown + LlamaCppModelsResponse
}.

(** [/^(.+?)[-_](.+)$/] matches a text without line terminator that has a
    [-] or [_] with at least one character on each side; [match[0]] is then
    the whole text. *)
Definition is_line_terminator (c : ascii) : bool :=
  match N_of_ascii c with
  | 10%N | 13%N => true
  | _ => false
  end.

Fixpoint has_line_terminator (s : string) : bool :=
  match s with
  | EmptyString => false
  | String c s' => is_line_terminator c || has_line_terminator s'
  end.

Definition is_separator (c : ascii) : bool :=
  Ascii.eqb c "-" || Ascii.eqb c "_".

Fixpoint separator_before_more (s : string) : bool :=
  match s with
  | String c (String _ _ as s') => is_separator c || separator_before_more s'
  | _ => false
  end.

Definition brand_model_match (s : string) : option string :=
  match s with
  | String _ s' =>
      if negb (has_line_terminator s) && separator_before_more s'
      then Some s else None
  | EmptyString => None
  end.

Definition extractModelName (modelPath : string) : string :=
  let parts := split "/" modelPath in
  let filename := last parts EmptyString in
  let nameWithoutExt := remove_suffix ".gguf" filename in
  match brand_model_match nameWithoutExt with
  | Some whole => whole
  | None => nameWithoutExt
  end.

(** [initialize()], given what the fetch of the models list produced; the
    result is the client afterwards and what was thrown, if anything. *)
Definition initialize (this : Client) (fetched : Thrown + ModelsResponse)
  : Client * option Thrown :=
  match fetched with
  | inl e => (this, Some e)
  | inr response =>
      if negb (models_ok response) then
        (this, Some (Error ("Failed to fetch models: "
                            ++ Json.number_to_string (models_status response)
                            ++ " " ++ models_statusText response)))
      else
        match models_json response with
        | inl e => (this, Some e)
        | inr modelsResponse =>
            match models modelsResponse with
            | Some (first :: _) =>
                ({| baseUrl := baseUrl this;
                    model := model_name first;
                    displayName := extractModelName (model_name first) |}, None)
            | _ =>
                match data modelsResponse with
                | Some (first :: _) =>
                    ({| baseUrl := baseUrl this;
                        model := model_id first;
                        displayName := extractModelName (model_id first) |}, None)
                | _ => (this, Some (Error "No models available from llama.cpp server"))
                end
            end
        end
  end.

(** *** Streaming completion *)

(** What the generator yields: a text fragment or a batch of tool calls. *)
Inductive StreamEvent : Type :=
| Text (text : string)
| ToolCalls (tool_calls : list OpenAIToolCall).

(** The locals of one call of [chatCompletionStream], with what it has
    yielded and how many warnings it has logged so far. *)
Record StreamState : Type := {
  currentToolCall : option OpenAIToolCall;
  toolCallAccumulator : list OpenAIToolCall;
  yielded : list StreamEvent;
  warnings : nat
}.

Definition initial : StreamState :=
  {| currentToolCall := None; toolCallAccumulator := [];
     yielded := []; warnings := 0 |}.

Definition yield (e : StreamEvent) (st : StreamState) : StreamState :=
  {| currentToolCall := currentToolCall st;
     toolCallAccumulator := toolCallAccumulator st;
     yielded := (yielded st ++ [e])%list;
     warnings := warnings st |}.

Definition warn (st : StreamState) : StreamState :=
  {| currentToolCall := currentToolCall st;
     toolCallAccumulator := toolCallAccumulator st;
     yielded := yielded st;
     warnings := S (warnings st) |}.

(** [if (currentToolCall && currentToolCall.id) toolCallAccumulator.push(currentToolCall)] *)
Definition push_current (current : option OpenAIToolCall) (acc : list OpenAIToolCall)
  : list OpenAIToolCall :=
  match current with
  | Some call => if truthy (id call) then (acc ++ [call])%list else acc
  | None => acc
  end.

(** The closing logic, at [[DONE]] and after the read loop. *)
Definition emit_tool_calls (st : StreamState) : StreamState :=
  let acc := push_current (currentToolCall st) (toolCallAccumulator st) in
  let st' := {| currentToolCall := currentToolCall st;
                toolCallAccumulator := acc;
                yielded := yielded st;
                warnings := warnings st |} in
  match acc with
  | [] => st'
  | _ :: _ => yield (ToolCalls acc) st'
  end.

(** [target += fragment] under [if (fragment)]. *)
Definition append_fragment (target : string) (fragment : option string) : string :=
  target ++ or_else fragment EmptyString.

Definition append_fragments (f : option Chunk.FunctionDelta) (call : OpenAIToolCall)
  : OpenAIToolCall :=
  match f with
  | Some fd =>
      {| id := id call;
         type := type call;
         function := {| name := append_fragment (name (function call)) (Chunk.name fd);
                        arguments := append_fragment (arguments (function call))
                                                     (Chunk.arguments fd) |} |}
  | None => call
  end.

(** [toolCallDelta.index === 0 && toolCallDelta.id]: the identifier of the
    call a delta announces, when it announces one. *)
Definition announced_id (toolCallDelta : Chunk.ToolCallDelta) : option string :=
  match Chunk.index toolCallDelta, Chunk.id toolCallDelta with
  | Some i, Some new_id => if (i =? 0)%Z && truthy new_id then Some new_id else None
  | _, _ => None
  end.

(** The body of [for (const toolCallDelta of delta.tool_calls)]. *)
Definition process_tool_call_delta (toolCallDelta : Chunk.ToolCallDelta) (st : StreamState)
  : StreamState :=
  let st1 :=
    match announced_id toolCallDelta with
    | Some new_id =>
        {| currentToolCall :=
             Some {| id := new_id;
                     type := "function";
                     function := {| name := EmptyString; arguments := EmptyString |} |};
           toolCallAccumulator := push_current (currentToolCall st) (toolCallAccumulator st);
           yielded := yielded st;
           warnings := warnings st |}
    | None => st
    end in
  match currentToolCall st1 with
  | Some call =>
      {| currentToolCall := Some (append_fragments (Chunk.function toolCallDelta) call);
         toolCallAccumulator := toolCallAccumulator st1;
         yielded := yielded st1;
         warnings := warnings st1 |}
  | None => st1
  end.

(** [chunk.choices[0]?.delta] *)
Definition first_delta (chunk : Chunk.OpenAIChatCompletionResponse) : option Chunk.Delta :=
  match Chunk.choices chunk with
  | choice :: _ => Chunk.delta choice
  | [] => None
  end.

(** The [try] block for a parsed chunk. *)
Definition process_chunk (chunk : Chunk.OpenAIChatCompletionResponse) (st : StreamState)
  : StreamState :=
  match first_delta chunk with
  | None => st
  | Some delta =>
      let st1 :=
        match Chunk.content delta with
        | Some text => if truthy text then yield (Text text) st else st
        | None => st
        end in
      match Chunk.tool_calls delta with
      | Some deltas => fold_left (fun s d => process_tool_call_delta d s) deltas st1
      | None => st1
      end
  end.

(** The payload of a [data: ] line once decoded. *)
Inductive Payload : Type :=
| Done
| Malformed (data : string)
| Parsed (chunk : Chunk.OpenAIChatCompletionResponse).

(** Either the generator has returned, or the loop goes on. *)
Inductive Step : Type :=
| Return (st : StreamState)
| Continue (st : StreamState).

(** What one payload does: [[DONE]] emits the tool calls and returns, a
    payload that does not parse is logged, a chunk is processed. *)
Definition process_payload (p : Payload) (st : StreamState) : Step :=
  match p with
  | Done => Return (emit_tool_calls st)
  | Malformed _ => Continue (warn st)
  | Parsed chunk => Continue (process_chunk chunk st)
  end.

Fixpoint process_payloads (ps : list Payload) (st : StreamState) : Step :=
  match ps with
  | [] => Continue st
  | p :: ps' =>
      match process_payload p st with
      | Return st' => Return st'
      | Continue st' => process_payloads ps' st'
      end
  end.

(** The state a step ends in, with the closing logic applied when the loop
    was left because the transport ended. *)
Definition finish (s : Step) : StreamState :=
  match s with
  | Return st => st
  | Continue st => emit_tool_calls st
  end.

(** The assembler run on a sequence of decoded payloads that ends with the
    transport closing. *)
Definition assemble (ps : list Payload) : StreamState :=
  finish (process_payloads ps initial).

Section Transport.

(** [const chunk: OpenAIChatCompletionResponse = JSON.parse(data)]: the
    chunk a payload denotes, [None] when the [try] block throws before it
    has done anything (the text is no JSON, or [chunk.choices] is missing). *)
Variable parseChunk : string -> option Chunk.OpenAIChatCompletionResponse.

Definition decode (data : string) : Payload :=
  if String.eqb data "[DONE]" then Done
  else
    match parseChunk data with
    | Some chunk => Parsed chunk
    | None => Malformed data
    end.

(** The payload of a line, when it is a [data: ] line. *)
Definition payload_of_line (line : string) : option Payload :=
  let trimmed := trim line in
  if startsWith trimmed "data: " then Some (decode (slice 6 trimmed)) else None.

(** The body of [for (const line of lines)]. *)
Definition process_line (line : string) (st : StreamState) : Step :=
  match payload_of_line line with
  | Some p => process_payload p st
  | None => Continue st
  end.

Fixpoint process_lines (lines : list string) (st : StreamState) : Step :=
  match lines with
  | [] => Continue st
  | line :: lines' =>
      match process_line line st with
      | Return st' => Return st'
      | Continue st' => process_lines lines' st'
      end
  end.

(** The [while (true)] loop over the texts the reader delivers until it
    reports [done]; the last piece of [buffer.split('\n')] stays in the
    buffer. *)
Fixpoint read_loop (reads : list string) (buffer : string) (st : StreamState) : Step :=
  match reads with
  | [] => Continue st
  | value :: reads' =>
      let lines := split newline (buffer ++ value) in
      match process_lines (removelast lines) st with
      | Return st' => Return st'
      | Continue st' => read_loop reads' (last lines EmptyString) st'
      end
  end.

(** The HTTP response of the [POST] of the streaming request: [body] is the
    sequence of decoded texts its reader delivers before it reports [done]. *)
Record StreamResponse : Type := {
  ok : bool;
  status : Z;
  statusText : string;
  body : option (list string)
}.

(** The outcome of draining the generator: what it threw, or what it
    yielded and how many warnings it logged. *)
Inductive Outcome : Type :=
| Threw (e : Thrown)
| Completed (events : list StreamEvent) (logged : nat).

Definition chatCompletionStream (response : StreamResponse) : Outcome :=
  if negb (ok response) then
    Threw (Error ("llama.cpp server error: "
                  ++ Json.number_to_string (status response) ++ " " ++ statusText response))
  else
    match body response with
    | None => Threw (Error "No response body for streaming request")
    | Some reads =>
        let st := finish (read_loop reads EmptyString initial) in
        Completed (yielded st) (warnings st)
    end.

End Transport.

End LlamaCppClient.

(* ================================================================= *)
(** ** Content generator facade ([createLlamaCppContentGenerator]) *)

Module ContentGenerator.

Import JsString.

(** A [Part] as [countTokens] reads it: its optional [text]. *)
Record Part : Type := { text : option string }.

(** One element of [request.contents]: a string, an object with a [role]
    property (a [Content], with optional [parts]), or another object (a
    [Part]). *)
Inductive ContentUnion : Type :=
| OfString (s : string)
| OfContent (role : string) (parts : option (list Part))
| OfPart (p : Part).

(** [request.contents]: one element or an array of them. *)
Inductive ContentListUnion : Type :=
| One (content : ContentUnion)
| Many (contents : list ContentUnion).

Record CountTokensParameters : Type := { contents : ContentListUnion }.
Record CountTokensResponse : Type := { totalTokens : nat }.

(** [p.text || ''] *)
Definition part_text (p : Part) : string := or_else (text p) EmptyString.

(** The text one element adds to [contentText], before the space. *)
Definition content_text (content : ContentUnion) : string :=
  match content with
  | OfString s => s
  | OfContent _ (Some parts) => join " " (map part_text parts)
  | OfContent _ None => EmptyString
  | OfPart p => part_text p
  end.

(** [Math.ceil(n / 4)] *)
Definition ceil_quarter (n : nat) : nat :=
  if (n mod 4 =? 0)%nat then n / 4 else S (n / 4).

Definition countTokens (request : CountTokensParameters) : CountTokensResponse :=
  let contents :=
    match contents request with
    | Many l => l
    | One c => [c]
    end in
  let contentText :=
    fold_left (fun acc content => acc ++ (content_text content ++ " ")) contents EmptyString in
  {| totalTokens := ceil_quarter (String.length contentText) |}.

End ContentGenerator.

(* ================================================================= *)
(** ** Reading a chunk from its JSON text *)

(** [JSON.parse(data)] read at the declared type of a streaming chunk, for
    texts of that type: [choices] is an array of objects, [delta] an object,
    [content], [id], [name] and [arguments] are strings, [index] is a number,
    [tool_calls] an array of objects.  An absent or [null] field is read as
    absent. *)
Module ChunkReader.

Import Json Chunk.

Fixpoint lookup (k : string) (members : list (string * json)) : option json :=
  match members with
  | [] => None
  | (k', v) :: members' => if String.eqb k' k then Some v else lookup k members'
  end.

Definition get (k : string) (v : json) : option json :=
  match v with
  | JObj members => lookup k members
  | _ => None
  end.

Definition get_string (k : string) (v : json) : option string :=
  match get k v with
  | Some (JStr s) => Some s
  | _ => None
  end.

Definition get_number (k : string) (v : json) : option Z :=
  match get k v with
  | Some (JNum n) => Some n
  | _ => None
  end.

Definition read_function (v : json) : option FunctionDelta :=
  match get "function" v with
  | Some (JObj _ as f) =>
      Some {| name := get_string "name" f; arguments := get_string "arguments" f |}
  | _ => None
  end.

Definition read_tool_call (v : json) : ToolCallDelta :=
  {| index := get_number "index" v;
     id := get_string "id" v;
     function := read_function v |}.

Definition read_delta (v : json) : Delta :=
  {| content := get_string "content" v;
     tool_calls :=
       match get "tool_calls" v with
       | Some (JArr deltas) => Some (map read_tool_call deltas)
       | _ => None
       end |}.

Definition read_choice (v : json) : Choice :=
  {| delta :=
       match get "delta" v with
       | Some (JObj _ as d) => Some (read_delta d)
       | _ => None
       end |}.

(** [None] when the text is no JSON, and when it has no [choices] array, so
    that [chunk.choices[0]] throws. *)
Definition readChunk (data : string) : option OpenAIChatCompletionResponse :=
  match Json.parse data with
  | Some v =>
      match get "choices" v with
      | Some (JArr cs) => Some {| choices := map read_choice cs |}
      | _ => None
      end
  | None => None
  end.

End ChunkReader.

(* ================================================================= *)
(** ** Specification vocabulary *)

Module Spec.

Import Json.

(** Membership of a key in a list of keys. *)
Definition has_key (k : string) (keys : list string) : bool :=
  existsb (String.eqb k) keys.

Fixpoint distinct (keys : list string) : bool :=
  match keys with
  | [] => true
  | k :: keys' => negb (has_key k keys') && distinct keys'
  end.

(** A JSON-serializable value: a value a JavaScript object graph can hold,
    so that no object has two properties of one name. *)
Fixpoint serializable (v : json) : bool :=
  match v with
  | JArr elems => forallb serializable elems
  | JObj members =>
      distinct (map fst members) && forallb (fun kv => serializable (snd kv)) members
  | _ => true
  end.

(** Valid JSON text: [JSON.parse] does not throw. *)
Definition valid_json (text : string) : bool :=
  match Json.parse text with
  | Some _ => true
  | None => false
  end.

(** *** Vocabulary of the round-trip proof *)

(** Does the text go on with a digit?  A numeral cannot be followed by
    one. *)
Definition head_is_digit (s : string) : bool :=
  match s with
  | EmptyString => false
  | String c _ => match digit_of c with Some _ => true | None => false end
  end.

Definition is_number_start (c : ascii) : bool :=
  Ascii.eqb c "-" || match digit_of c with Some _ => true | None => false end.

(** The first character of a rendered value is no white space and closes
    no array or object. *)
Definition starts_value (s : string) : Prop :=
  match s with
  | EmptyString => False
  | String c _ => is_ws c = false /\ Ascii.eqb c "]" = false /\ Ascii.eqb c "}" = false
  end.

Definition render_member (kv : string * json) : string :=
  quote (fst kv) ++ ":" ++ stringify (snd kv).

(** [v] is read back from its rendering, whatever follows, given fuel
    beyond the length of the rendering. *)
Definition roundtrips (v : json) : Prop :=
  forall fuel rest,
    String.length (stringify v) < fuel ->
    head_is_digit rest = false ->
    parse_value fuel (stringify v ++ rest) = Some (v, rest).

(** *** Streams *)

Import OpenAI LlamaCppClient.

(** A response of the streaming request that the client accepts, with the
    texts its reader delivers. *)
Definition streaming (reads : list string) : StreamResponse :=
  {| ok := true; status := 200%Z; statusText := "OK"; body := Some reads |}.

(** The events an outcome delivered. *)
Definition events_of (o : Outcome) : list StreamEvent :=
  match o with
  | Completed events _ => events
  | Threw _ => []
  end.

Fixpoint concat_all (texts : list string) : string :=
  match texts with
  | [] => EmptyString
  | t :: texts' => t ++ concat_all texts'
  end.

(** The lines of a transport that are complete: the text before its last
    line break, cut at the line breaks. *)
Definition complete_lines (reads : list string) : list string :=
  removelast (JsString.split JsString.newline (concat_all reads)).

Section Decoded.

Variable parseChunk : string -> option Chunk.OpenAIChatCompletionResponse.

Definition payloads_of_lines (lines : list string) : list Payload :=
  flat_map (fun line =>
              match payload_of_line parseChunk line with
              | Some p => [p]
              | None => []
              end) lines.

(** The payloads decoded from a transport, in decode order. *)
Definition transport_payloads (reads : list string) : list Payload :=
  payloads_of_lines (complete_lines reads).

End Decoded.

(** The text a chunk carries, if any. *)
Definition chunk_text (chunk : Chunk.OpenAIChatCompletionResponse) : list string :=
  match first_delta chunk with
  | Some delta =>
      match Chunk.content delta with
      | Some t => if JsString.truthy t then [t] else []
      | None => []
      end
  | None => []
  end.

(** The texts of the chunks decoded before the terminal marker, in decode
    order. *)
Fixpoint decoded_texts (ps : list Payload) : list string :=
  match ps with
  | [] => []
  | Done :: _ => []
  | Malformed _ :: ps' => decoded_texts ps'
  | Parsed chunk :: ps' => (chunk_text chunk ++ decoded_texts ps')%list
  end.

(** The state in which the closing logic runs: after the payloads before
    the terminal marker, or after all of them when there is none. *)
Fixpoint state_at_close (ps : list Payload) (st : StreamState) : StreamState :=
  match ps with
  | [] => st
  | Done :: _ => st
  | Malformed _ :: ps' => state_at_close ps' (warn st)
  | Parsed chunk :: ps' => state_at_close ps' (process_chunk chunk st)
  end.

(** Every tool call of every batch event has a non-empty identifier. *)
Definition ids_nonempty (calls : list OpenAIToolCall) : bool :=
  forallb (fun call => JsString.truthy (id call)) calls.

Definition batch_ids_nonempty (events : list StreamEvent) : bool :=
  forallb (fun e => match e with
                    | ToolCalls calls => ids_nonempty calls
                    | Text _ => true
                    end) events.

(** The batch the closing logic yields, if any. *)
Definition closing_batch (st : StreamState) : list StreamEvent :=
  match push_current (currentToolCall st) (toolCallAccumulator st) with
  | [] => []
  | call :: calls => [ToolCalls (call :: calls)]
  end.

(** The invariant of the accumulator: only calls with an identifier are
    accumulated or open. *)
Definition ids_ok (st : StreamState) : Prop :=
  ids_nonempty (toolCallAccumulator st) = true /\
  match currentToolCall st with
  | Some call => JsString.truthy (id call) = true
  | None => True
  end.

(** States that differ in the number of warnings only. *)
Definition same_run (st1 st2 : StreamState) : Prop :=
  currentToolCall st1 = currentToolCall st2 /\
  toolCallAccumulator st1 = toolCallAccumulator st2 /\
  yielded st1 = yielded st2.

Definition same_step (s1 s2 : Step) : Prop :=
  match s1, s2 with
  | Return st1, Return st2 => same_run st1 st2
  | Continue st1, Continue st2 => same_run st1 st2
  | _, _ => False
  end.

(** Server text for the examples: one [data: ] line per chunk. *)
Definition sse (payload : string) : string :=
  "data: " ++ payload ++ String JsString.newline EmptyString.

Definition delta_json (delta : json) : string :=
  Json.stringify (JObj [("choices", JArr [JObj [("index", JNum 0); ("delta", delta)]])]).

Definition start_json (new_id fname : string) : string :=
  delta_json
    (JObj [("tool_calls",
            JArr [JObj [("index", JNum 0); ("id", JStr new_id); ("type", JStr "function");
                        ("function", JObj [("name", JStr fname)])]])]).

Definition fragment_json (fragment : string) : string :=
  delta_json
    (JObj [("tool_calls", JArr [JObj [("function", JObj [("arguments", JStr fragment)])]])]).

Definition text_json (text : string) : string :=
  delta_json (JObj [("content", JStr text)]).

(** The delta sequence of the reconstruction example. *)
Definition tool_call_start (new_id fname : string) : Chunk.ToolCallDelta :=
  {| Chunk.index := Some 0%Z;
     Chunk.id := Some new_id;
     Chunk.function := Some {| Chunk.name := Some fname; Chunk.arguments := None |} |}.

Definition arguments_fragment (fragment : string) : Chunk.ToolCallDelta :=
  {| Chunk.index := None;
     Chunk.id := None;
     Chunk.function := Some {| Chunk.name := None; Chunk.arguments := Some fragment |} |}.

Definition tool_call_chunk (d : Chunk.ToolCallDelta) : Payload :=
  Parsed {| Chunk.choices :=
              [ {| Chunk.delta := Some {| Chunk.content := None;
                                          Chunk.tool_calls := Some [d] |} |} ] |}.

Definition reconstruction_deltas : list Payload :=
  [ tool_call_chunk (tool_call_start "a" "f");
    tool_call_chunk (arguments_fragment ("{" ++ Json.quote "x" ++ ":"));
    tool_call_chunk (arguments_fragment "1}");
    tool_call_chunk (tool_call_start "b" "g");
    tool_call_chunk (arguments_fragment "{}");
    Done ].

Definition completed_call (call_id fname args : string) : OpenAIToolCall :=
  {| id := call_id; type := "function";
     function := {| name := fname; arguments := args |} |}.

(** *** Model discovery *)

(** The model the adapter selects: element 0 of the [models] shape, else
    element 0 of the [data] shape. *)
Definition first_listed (m : LlamaCppModelsResponse) : option string :=
  match models m with
  | Some (first :: _) => Some (model_name first)
  | _ =>
      match data m with
      | Some (first :: _) => Some (model_id first)
      | _ => None
      end
  end.

(** A shape of the models list without entry: absent or empty. *)
Definition no_entries {A : Type} (shape : option (list A)) : bool :=
  match shape with
  | Some (_ :: _) => false
  | _ => true
  end.

(** *** Token estimate *)

Import ContentGenerator.

Definition sum (l : list nat) : nat := fold_right Nat.add 0 l.

(** The number of characters of the textual content of one element. *)
Definition characters (content : ContentUnion) : nat :=
  match content with
  | OfString s => String.length s
  | OfContent _ (Some parts) => sum (map (fun p => String.length (part_text p)) parts)
  | OfContent _ None => 0
  | OfPart p => String.length (part_text p)
  end.

Definition contents_list (request : CountTokensParameters) : list ContentUnion :=
  match contents request with
  | Many l => l
  | One c => [c]
  end.

(** The total number of characters of all textual content in a request. *)
Definition total_characters (request : CountTokensParameters) : nat :=
  sum (map characters (contents_list request)).

(** The spaces [countTokens] adds: one after every element, and one between
    two parts of a [Content]. *)
Definition separators (content : ContentUnion) : nat :=
  match content with
  | OfContent _ (Some parts) => 1 + (List.length parts - 1)
  | _ => 1
  end.

Definition total_separators (request : CountTokensParameters) : nat :=
  sum (map separators (contents_list request)).

End Spec.

(* ================================================================= *)
(** ** The client before tool calls ([src/unnamed/part_002]) *)

(** The earlier [LlamaCppClient]: the same line handling, only text is
    yielded, and [chatCompletion] insists on a non-empty content. *)
Module TextOnlyClient.

Import JsString OpenAI LlamaCppClient.

Record TextState : Type := {
  texts : list string;
  logged : nat
}.

Inductive TextStep : Type :=
| Returned (st : TextState)
| Going (st : TextState).

(** [const content = chunk.choices[0]?.delta?.content; if (content) yield content] *)
Definition process_chunk (chunk : Chunk.OpenAIChatCompletionResponse) (st : TextState)
  : TextState :=
  match first_delta chunk with
  | Some delta =>
      match Chunk.content delta with
      | Some text =>
          if truthy text then {| texts := (texts st ++ [text])%list; logged := logged st |}
          else st
      | None => st
      end
  | None => st
  end.

Definition process_payload (p : Payload) (st : TextState) : TextStep :=
  match p with
  | Done => Returned st
  | Malformed _ => Going {| texts := texts st; logged := S (logged st) |}
  | Parsed chunk => Going (process_chunk chunk st)
  end.

Section Transport.

Variable parseChunk : string -> option Chunk.OpenAIChatCompletionResponse.

Definition process_line (line : string) (st : TextState) : TextStep :=
  match payload_of_line parseChunk line with
  | Some p => process_payload p st
  | None => Going st
  end.

Fixpoint process_lines (lines : list string) (st : TextState) : TextStep :=
  match lines with
  | [] => Going st
  | line :: lines' =>
      match process_line line st with
      | Returned st' => Returned st'
      | Going st' => process_lines lines' st'
      end
  end.

Fixpoint read_loop (reads : list string) (buffer : string) (st : TextState) : TextStep :=
  match reads with
  | [] => Going st
  | value :: reads' =>
      let lines := split newline (buffer ++ value) in
      match process_lines (removelast lines) st with
      | Returned st' => Returned st'
      | Going st' => read_loop reads' (last lines EmptyString) st'
      end
  end.

Inductive TextOutcome : Type :=
| TextThrew (e : Thrown)
| TextCompleted (events : list string) (warned : nat).

Definition chatCompletionStream (response : StreamResponse) : TextOutcome :=
  if negb (ok response) then
    TextThrew (Error ("llama.cpp server error: "
                      ++ Json.number_to_string (status response) ++ " "
                      ++ statusText response))
  else
    match body response with
    | None => TextThrew (Error "No response body for streaming request")
    | Some reads =>
        match read_loop reads EmptyString {| texts := []; logged := 0 |} with
        | Returned st | Going st => TextCompleted (texts st) (logged st)
        end
    end.

End Transport.

End TextOnlyClient.

(* ================================================================= *)
(** ** The single-shot completion ([chatCompletion]) *)

Module Completion.

Import JsString OpenAI LlamaCppClient.

(** [OpenAIUsage] *)
Record Usage : Type := {
  prompt_tokens : Z;
  completion_tokens : Z;
  total_tokens : Z
}.

(** The message of a choice as [chatCompletion] reads it. *)
Record Message : Type := {
  msg_content : option string;
  msg_tool_calls : option (list OpenAIToolCall)
}.

Record Choice : Type := { message : option Message }.

Record Body : Type := {
  choices : list Choice;
  body_usage : option Usage
}.

(** The HTTP response of the [POST]. *)
Record Response : Type := {
  completion_ok : bool;
  completion_status : Z;
  completion_statusText : string;
  completion_json : Thrown + Body
}.

(** [LlamaCppResponse] *)
Record LlamaCppResponse : Type := {
  content : string;
  model : string;
  tool_calls : option (list OpenAIToolCall);
  usage : option Usage
}.

(** [openaiResponse.choices[0]?.message] *)
Definition first_message (b : Body) : option Message :=
  match choices b with
  | choice :: _ => message choice
  | [] => None
  end.

(** The usage counters are copied field by field. *)
Definition copy_usage (u : option Usage) : option Usage :=
  match u with
  | Some x => Some {| prompt_tokens := prompt_tokens x;
                      completion_tokens := completion_tokens x;
                      total_tokens := total_tokens x |}
  | None => None
  end.

Definition chatCompletion (this : Client) (fetched : Thrown + Response)
  : Thrown + LlamaCppResponse :=
  match fetched with
  | inl e => inl e
  | inr response =>
      if negb (completion_ok response) then
        inl (Error ("llama.cpp server error: "
                    ++ Json.number_to_string (completion_status response) ++ " "
                    ++ completion_statusText response))
      else
        match completion_json response with
        | inl e => inl e
        | inr openaiResponse =>
            match first_message openaiResponse with
            | None => inl (Error "No message in response")
            | Some msg =>
                inr {| content := or_else (msg_content msg) EmptyString;
                       model := displayName this;
                       tool_calls := msg_tool_calls msg;
                       usage := copy_usage (body_usage openaiResponse) |}
            end
        end
  end.



End Completion.

(* ================================================================= *)
(** ** The translator: tool results *)

Module ToolResponse.

Import Json OpenAI.

(** The [tool] message as [convertToolResponseToGeminiPart] reads it. *)
Record ToolMessage : Type := {
  tm_content : option string;
  tm_name : string
}.

(** [{ functionResponse: { name, response: { name, content } } }], with
    [content] absent when the message has none. *)
Record FunctionResponsePart : Type := {
  frp_name : string;
  frp_response_name : string;
  frp_response_content : option json
}.

Definition convertToolResponseToGeminiPart (message : ToolMessage) : FunctionResponsePart :=
  let content :=
    match tm_content message with
    | Some text =>
        Some match Json.parse text with
             | Some v => v
             | None => JStr text
             end
    | None => None
    end in
  {| frp_name := tm_name message;
     frp_response_name := tm_name message;
     frp_response_content := content |}.

End ToolResponse.

(* ================================================================= *)
(** ** The facade: from canonical contents to wire messages *)

(** [LlamaCppMessage] *)
Module Message.

Record LlamaCppMessage : Type := {
  role : string;
  content : string;
  tool_calls : option (list OpenAI.OpenAIToolCall);
  tool_call_id : option string;
  name : option string
}.

End Message.

Module Facade.

Import JsString Json OpenAI ToolConversion LlamaCppClient Message.

(** [part.functionResponse]: its [name] and its [response] object. *)
Record FunctionResponse : Type := {
  fr_name : string;
  fr_response : list (string * json)
}.

(** A [Part] as [generateContent] reads it. *)
Record Part : Type := {
  text : option string;
  functionCall : option FunctionCall;
  functionResponse : option FunctionResponse
}.

(** An element of [content.parts]: a string or a [Part]. *)
Inductive PartUnion : Type :=
| StringPart (s : string)
| ObjectPart (p : Part).

(** One element of [request.contents]: a string, an object with a [role]
    property, or another object. *)
Inductive ContentUnion : Type :=
| OfString (s : string)
| OfContent (content_role : string) (parts : option (list PartUnion))
| OfPart (p : Part).

Inductive ContentListUnion : Type :=
| One (c : ContentUnion)
| Many (l : list ContentUnion).

Definition user_message (text : string) : LlamaCppMessage :=
  {| role := "user"; content := text; tool_calls := None;
     tool_call_id := None; name := None |}.

(** [part.functionResponse.response.content || part.functionResponse.response] *)
Definition response_payload (fr : FunctionResponse) : json :=
  match ChunkReader.lookup "content" (fr_response fr) with
  | Some v => if Json.truthy v then v else JObj (fr_response fr)
  | None => JObj (fr_response fr)
  end.

Definition tool_message (fr : FunctionResponse) : LlamaCppMessage :=
  {| role := "tool";
     content := Json.stringify (response_payload fr);
     tool_calls := None;
     tool_call_id := Some (fr_name fr);
     name := Some (fr_name fr) |}.

(** The locals of the loop over the parts of one content: [text],
    [functionCalls] and the tool messages pushed meanwhile. *)
Record PartsState : Type := {
  ps_text : string;
  ps_functionCalls : list FunctionCall;
  ps_pushed : list LlamaCppMessage
}.

(** The body of [for (const part of content.parts)]. *)
Definition process_part (st : PartsState) (part : PartUnion) : PartsState :=
  match part with
  | StringPart s =>
      {| ps_text := ps_text st ++ s;
         ps_functionCalls := ps_functionCalls st; ps_pushed := ps_pushed st |}
  | ObjectPart p =>
      if truthy_opt (text p) then
        {| ps_text := ps_text st ++ or_else (text p) EmptyString;
           ps_functionCalls := ps_functionCalls st; ps_pushed := ps_pushed st |}
      else
        match functionCall p with
        | Some fc =>
            {| ps_text := ps_text st;
               ps_functionCalls := (ps_functionCalls st ++ [fc])%list;
               ps_pushed := ps_pushed st |}
        | None =>
            match functionResponse p with
            | Some fr =>
                {| ps_text := ps_text st;
                   ps_functionCalls := ps_functionCalls st;
                   ps_pushed := (ps_pushed st ++ [tool_message fr])%list |}
            | None => st
            end
        end
  end.

(** [l.map((x, j) => f(j, x))], counting from [j]. *)
Fixpoint map_from {A B : Type} (f : nat -> A -> B) (j : nat) (l : list A) : list B :=
  match l with
  | [] => []
  | x :: l' => f j x :: map_from f (S j) l'
  end.

Section Clock.

(** [now i j] is what [Date.now()] returns when the identifier of the
    [j]-th function call of the [i]-th content is made up. *)
Variable now : nat -> nat -> Z.

Definition to_tool_call (i j : nat) (fc : FunctionCall) : OpenAIToolCall :=
  {| id := or_else (fc_id fc) ("call_" ++ Json.number_to_string (now i j));
     type := "function";
     function := {| OpenAI.name := fc_name fc;
                    arguments := Json.stringify (args_or_empty (fc_args fc)) |} |}.

(** [content.role === 'model' ? 'assistant' : content.role] *)
Definition wire_role (content_role : string) : string :=
  if String.eqb content_role "model" then "assistant" else content_role.

(** The messages the [i]-th element of the contents adds. *)
Definition content_messages (i : nat) (c : ContentUnion) : list LlamaCppMessage :=
  match c with
  | OfString s => [user_message s]
  | OfContent content_role parts =>
      let st := fold_left process_part
                  match parts with Some l => l | None => [] end
                  {| ps_text := EmptyString; ps_functionCalls := []; ps_pushed := [] |} in
      let role' := wire_role content_role in
      let has_calls := match ps_functionCalls st with [] => false | _ :: _ => true end in
      (ps_pushed st ++
       if JsString.truthy (trim (ps_text st)) || has_calls then
         [ {| role := role';
              content := trim (ps_text st);
              tool_calls :=
                if has_calls && String.eqb role' "assistant"
                then Some (map_from (to_tool_call i) 0 (ps_functionCalls st))
                else None;
              tool_call_id := None;
              name := None |} ]
       else [])%list
  | OfPart p =>
      let t := or_else (text p) EmptyString in
      if JsString.truthy (trim t) then [user_message t] else []
  end.

(** The [messages] of [generateContent] and of [generateContentStream]. *)
Definition to_messages (contents : ContentListUnion) : list LlamaCppMessage :=
  List.concat (map_from content_messages 0
                 match contents with
                 | Many l => l
                 | One c => [c]
                 end).

End Clock.

(** *** The responses of the streaming generator *)

Inductive ResponsePart : Type :=
| TextPart (t : string)
| FunctionCallPart (fc : FunctionCall).

(** [candidates[0]] of a [GenerateContentResponse]: its parts and finish
    reason ([None] for [undefined]). *)
Record GenerateContentResponse : Type := {
  response_parts : list ResponsePart;
  finishReason : option string
}.

(** The body of [for await (const chunk of client.chatCompletionStream(...))]. *)
Definition stream_response (chunk : StreamEvent) : GenerateContentResponse :=
  match chunk with
  | Text t => {| response_parts := [TextPart t]; finishReason := None |}
  | ToolCalls calls =>
      {| response_parts := map FunctionCallPart (convertOpenAIToolCallsToGemini calls);
         finishReason := Some "TOOL_CALLS" |}
  end.

Definition generateContentStream
  (parseChunk : string -> option Chunk.OpenAIChatCompletionResponse)
  (response : StreamResponse) : Thrown + list GenerateContentResponse :=
  match chatCompletionStream parseChunk response with
  | Threw e => inl e
  | Completed events _ => inr (map stream_response events)
  end.

End Facade.

(* ================================================================= *)
(** ** Authentication method and generator configuration *)

Module Auth.

Import JsString LlamaCppClient.

Inductive AuthType : Type :=
| LOGIN_WITH_GOOGLE_PERSONAL
| LOGIN_WITH_GOOGLE_ENTERPRISE
| USE_GEMINI
| USE_VERTEX_AI
| USE_LLAMACPP_SERVER.

(** The string value of a member of the enum. *)
Definition value (a : AuthType) : string :=
  match a with
  | LOGIN_WITH_GOOGLE_PERSONAL => "oauth-personal"
  | LOGIN_WITH_GOOGLE_ENTERPRISE => "oauth-enterprise"
  | USE_GEMINI => "gemini-api-key"
  | USE_VERTEX_AI => "vertex-ai"
  | USE_LLAMACPP_SERVER => "llamacpp-server"
  end.

(** [validateAuthMethod(authMethod)], with [LLAMACPP_BASE_URL] as the
    environment holds it once [loadEnvironment()] has run; [None] is
    [null]. *)
Definition validateAuthMethod (LLAMACPP_BASE_URL : option string) (authMethod : string)
  : option string :=
  if String.eqb authMethod (value USE_LLAMACPP_SERVER) then
    if negb (truthy_opt LLAMACPP_BASE_URL) then
      Some "LLAMACPP_BASE_URL environment variable not found. Add that to your .env (e.g., LLAMACPP_BASE_URL=http://10.3.0.0:8080) and try again, no reload needed!"
    else None
  else if String.eqb authMethod (value LOGIN_WITH_GOOGLE_PERSONAL) then
    Some "Google OAuth authentication is no longer supported. Please use llama.cpp server with LLAMACPP_BASE_URL environment variable."
  else if String.eqb authMethod (value LOGIN_WITH_GOOGLE_ENTERPRISE) then
    Some "Google Workspace authentication is no longer supported. Please use llama.cpp server with LLAMACPP_BASE_URL environment variable."
  else if String.eqb authMethod (value USE_GEMINI) then
    Some "Gemini API key authentication is no longer supported. Please use llama.cpp server with LLAMACPP_BASE_URL environment variable."
  else if String.eqb authMethod (value USE_VERTEX_AI) then
    Some "Vertex AI authentication is no longer supported. Please use llama.cpp server with LLAMACPP_BASE_URL environment variable."
  else
    Some "Invalid auth method selected. Please use llama.cpp server authentication.".

Record ContentGeneratorConfig : Type := {
  model : string;
  apiKey : option string;
  vertexai : option bool;
  authType : option AuthType;
  llamacppBaseUrl : option string
}.

Definition auth_eqb (a b : AuthType) : bool := String.eqb (value a) (value b).

(** [createContentGeneratorConfig(model, authType, config)]: [getModel] is
    what [config?.getModel?.()] gives, [None] when there is nothing to
    call. *)
Definition createContentGeneratorConfig
  (LLAMACPP_BASE_URL : option string)
  (model0 : option string) (authType0 : option AuthType) (getModel : option string)
  : Thrown + ContentGeneratorConfig :=
  let authType1 :=
    match authType0 with
    | Some a => a
    | None => USE_LLAMACPP_SERVER
    end in
  if auth_eqb authType1 USE_LLAMACPP_SERVER then
    if negb (truthy_opt LLAMACPP_BASE_URL) then
      inl (Error "LLAMACPP_BASE_URL environment variable is required for llama.cpp server")
    else
      inr {| model := or_else getModel (or_else model0 "auto-detect");
             apiKey := None;
             vertexai := None;
             authType := Some authType1;
             llamacppBaseUrl := LLAMACPP_BASE_URL |}
  else
    inl (Error ("Authentication type " ++ value authType1
                ++ " is no longer supported. Please use llama.cpp server with LLAMACPP_BASE_URL environment variable.")).

(** [createContentGenerator(config)], given what the fetch of the models
    list produces: the configuration afterwards and the client the
    generator wraps. *)
Definition createContentGenerator
  (config : ContentGeneratorConfig) (fetched : Thrown + ModelsResponse)
  : Thrown + (ContentGeneratorConfig * Client) :=
  match authType config, llamacppBaseUrl config with
  | Some a, Some url =>
      if auth_eqb a USE_LLAMACPP_SERVER && truthy url then
        match initialize (constructor url) fetched with
        | (client, None) =>
            inr ({| model := displayName client;
                    apiKey := apiKey config;
                    vertexai := vertexai config;
                    authType := authType config;
                    llamacppBaseUrl := llamacppBaseUrl config |}, client)
        | (_, Some e) => inl e
        end
      else
        inl (Error "Only llama.cpp server authentication is supported. Please set LLAMACPP_BASE_URL environment variable.")
  | _, _ =>
      inl (Error "Only llama.cpp server authentication is supported. Please set LLAMACPP_BASE_URL environment variable.")
  end.

End Auth.

(* ================================================================= *)
(** ** Vocabulary of the further properties *)

Module StreamSpec.

Import JsString OpenAI LlamaCppClient.

(** The tool-call deltas of a chunk. *)
Definition chunk_deltas (chunk : Chunk.OpenAIChatCompletionResponse)
  : list Chunk.ToolCallDelta :=
  match first_delta chunk with
  | Some delta =>
      match Chunk.tool_calls delta with
      | Some ds => ds
      | None => []
      end
  | None => []
  end.

(** The tool-call deltas decoded before the terminal marker, in decode
    order. *)
Fixpoint decoded_deltas (ps : list Payload) : list Chunk.ToolCallDelta :=
  match ps with
  | [] => []
  | Done :: _ => []
  | Malformed _ :: ps' => decoded_deltas ps'
  | Parsed chunk :: ps' => (chunk_deltas chunk ++ decoded_deltas ps')%list
  end.

(** The payloads that did not parse, before the terminal marker. *)
Fixpoint malformed_count (ps : list Payload) : nat :=
  match ps with
  | [] => 0
  | Done :: _ => 0
  | Malformed _ :: ps' => S (malformed_count ps')
  | Parsed _ :: ps' => malformed_count ps'
  end.

Definition name_fragment (d : Chunk.ToolCallDelta) : string :=
  match Chunk.function d with
  | Some f => or_else (Chunk.name f) EmptyString
  | None => EmptyString
  end.

Definition arguments_of (d : Chunk.ToolCallDelta) : string :=
  match Chunk.function d with
  | Some f => or_else (Chunk.arguments f) EmptyString
  | None => EmptyString
  end.

(** The fragments of the deltas up to the next delta that announces a
    call. *)
Fixpoint following_names (ds : list Chunk.ToolCallDelta) : string :=
  match ds with
  | [] => EmptyString
  | d :: ds' =>
      match announced_id d with
      | Some _ => EmptyString
      | None => name_fragment d ++ following_names ds'
      end
  end.

Fixpoint following_arguments (ds : list Chunk.ToolCallDelta) : string :=
  match ds with
  | [] => EmptyString
  | d :: ds' =>
      match announced_id d with
      | Some _ => EmptyString
      | None => arguments_of d ++ following_arguments ds'
      end
  end.

(** One call for every delta that announces one: its identifier, and the
    fragments of that delta and of the deltas up to the next announcement.
    The deltas before the first announcement give nothing. *)
Fixpoint reassembled (ds : list Chunk.ToolCallDelta) : list OpenAIToolCall :=
  match ds with
  | [] => []
  | d :: ds' =>
      match announced_id d with
      | Some new_id =>
          {| id := new_id;
             type := "function";
             function := {| name := name_fragment d ++ following_names ds';
                            arguments := arguments_of d ++ following_arguments ds' |} |}
          :: reassembled ds'
      | None => reassembled ds'
      end
  end.

(** The batch event for a list of calls: none for no call. *)
Definition batch_of (calls : list OpenAIToolCall) : list StreamEvent :=
  match calls with
  | [] => []
  | _ :: _ => [ToolCalls calls]
  end.

(** A call with more fragments appended. *)
Definition extended (call : OpenAIToolCall) (names args : string) : OpenAIToolCall :=
  {| id := id call;
     type := type call;
     function := {| name := name (function call) ++ names;
                    arguments := arguments (function call) ++ args |} |}.

(** States with the same open call and the same accumulated calls. *)
Definition same_calls (st1 st2 : StreamState) : Prop :=
  currentToolCall st1 = currentToolCall st2 /\
  toolCallAccumulator st1 = toolCallAccumulator st2.

End StreamSpec.

Module FacadeSpec.

Import JsString Json OpenAI ToolConversion Message Facade.

(** The function calls and function responses of a request hold
    JSON-serializable values. *)
Definition part_serializable (part : PartUnion) : bool :=
  match part with
  | StringPart _ => true
  | ObjectPart p =>
      match functionCall p with
      | Some fc => Spec.serializable (args_or_empty (fc_args fc))
      | None => true
      end
      && match functionResponse p with
         | Some fr => Spec.serializable (JObj (fr_response fr))
         | None => true
         end
  end.

Definition content_serializable (c : ContentUnion) : bool :=
  match c with
  | OfContent _ (Some parts) => forallb part_serializable parts
  | _ => true
  end.

Definition contents_serializable (contents : ContentListUnion) : bool :=
  match contents with
  | Many l => forallb content_serializable l
  | One c => content_serializable c
  end.

(** The function calls gathered from the parts of one content hold
    JSON-serializable arguments. *)
Definition calls_serializable (calls : list FunctionCall) : bool :=
  forallb (fun fc => Spec.serializable (args_or_empty (fc_args fc))) calls.

(** What a wire message must satisfy to be sent: its role is no canonical
    [model], tool calls come only with the role [assistant], never as an
    empty list, each with the type [function] and an identifier. *)
Definition tool_call_ok (call : OpenAIToolCall) : bool :=
  JsString.truthy (id call) && String.eqb (type call) "function".

Definition message_ok (m : LlamaCppMessage) : bool :=
  negb (String.eqb (role m) "model")
  && match tool_calls m with
     | Some calls =>
         String.eqb (role m) "assistant"
         && match calls with [] => false | _ :: _ => true end
         && forallb tool_call_ok calls
     | None => true
     end.

(** The texts of a message are valid JSON where the wire format wants
    JSON: the arguments of its tool calls and, for a tool result, its
    content. *)
Definition message_json_ok (m : LlamaCppMessage) : bool :=
  match tool_calls m with
  | Some calls => forallb (fun call => Spec.valid_json (arguments (function call))) calls
  | None => true
  end
  && match tool_call_id m with
     | Some _ => Spec.valid_json (content m)
     | None => true
     end.

End FacadeSpec.

(* ================================================================= *)
(** ** The single-shot call of the facade *)

Module Generate.

Import JsString OpenAI ToolConversion LlamaCppClient Completion Facade.

(** [usageMetadata] *)
Record UsageMetadata : Type := {
  promptTokenCount : Z;
  candidatesTokenCount : Z;
  totalTokenCount : Z
}.

(** What [generateContent] returns: the content and the finish reason of
    [candidates[0]], and [usageMetadata]. *)
Record GeneratedContent : Type := {
  candidate_role : string;
  candidate_parts : list ResponsePart;
  candidate_finishReason : string;
  candidate_index : Z;
  usageMetadata : option UsageMetadata
}.

(** The response built from what [client.chatCompletion] returned. *)
Definition response_of (response : LlamaCppResponse) : GeneratedContent :=
  let text_parts :=
    if truthy (content response) then [TextPart (content response)] else [] in
  let call_parts :=
    match tool_calls response with
    | Some calls => map FunctionCallPart (convertOpenAIToolCallsToGemini calls)
    | None => []
    end in
  {| candidate_role := "model";
     candidate_parts := (text_parts ++ call_parts)%list;
     candidate_finishReason :=
       match tool_calls response with
       | Some _ => "TOOL_CALLS"
       | None => "STOP"
       end;
     candidate_index := 0%Z;
     usageMetadata :=
       match usage response with
       | Some u => Some {| promptTokenCount := prompt_tokens u;
                           candidatesTokenCount := completion_tokens u;
                           totalTokenCount := total_tokens u |}
       | None => None
       end |}.

(** [generateContent(request)], given what the fetch of the completion
    produces. *)
Definition generateContent (client : Client) (fetched : Thrown + Response)
  : Thrown + GeneratedContent :=
  match chatCompletion client fetched with
  | inl e => inl e
  | inr response => inr (response_of response)
  end.

End Generate.

Module GenerateSpec.

Import JsString OpenAI LlamaCppClient.

(** A server that streams a message in the plainest way: one chunk with the
    whole content, one chunk with one complete delta for every tool call,
    then the terminal marker.  Every delta carries the [index] the server
    gave it. *)
Definition content_chunk (text : string) : Payload :=
  Parsed {| Chunk.choices :=
              [ {| Chunk.delta := Some {| Chunk.content := Some text;
                                          Chunk.tool_calls := None |} |} ] |}.

Definition whole_call (indexed : Z * OpenAIToolCall) : Chunk.ToolCallDelta :=
  {| Chunk.index := Some (fst indexed);
     Chunk.id := Some (id (snd indexed));
     Chunk.function :=
       Some {| Chunk.name := Some (name (function (snd indexed)));
               Chunk.arguments := Some (arguments (function (snd indexed))) |} |}.

Definition message_payloads (text : string) (indexed : list (Z * OpenAIToolCall))
  : list Payload :=
  content_chunk text :: (map (fun ic => Spec.tool_call_chunk (whole_call ic)) indexed
                         ++ [Done])%list.

(** Every delta carries the index 0, the only one with which the client
    takes a delta for the start of a call. *)
Definition all_index_zero (indexed : list (Z * OpenAIToolCall)) : bool :=
  forallb (fun ic => (fst ic =? 0)%Z) indexed.

(** The tool calls of a response, none when the property is absent. *)
Definition calls_of (response : Completion.LlamaCppResponse) : list OpenAIToolCall :=
  match Completion.tool_calls response with
  | Some calls => calls
  | None => []
  end.

(** Server text for a complete tool call with the given index. *)
Definition whole_call_json (index : Z) (call_id fname args : string) : string :=
  Spec.delta_json
    (Json.JObj
       [("tool_calls",
         Json.JArr
           [Json.JObj [("index", Json.JNum index); ("id", Json.JStr call_id);
                       ("type", Json.JStr "function");
                       ("function", Json.JObj [("name", Json.JStr fname);
                                               ("arguments", Json.JStr args)])]])]).


End GenerateSpec.

(* ================================================================= *)
(** ** Arguments as text *)

Module JsonText.

Import JsString.






End JsonText.

Module TranslatorSpec.

Import JsString OpenAI LlamaCppClient.



End TranslatorSpec.

(* ================================================================= *)
(** ** Facts about strings *)

Section StringFacts.

Lemma string_app_assoc (a b c : string) : (a ++ b) ++ c = a ++ (b ++ c).
Proof.
  induction a as [|x a IH]; simpl; [reflexivity|].
  now rewrite IH.
Qed.

Lemma string_app_nil_r (a : string) : a ++ "" = a.
Proof.
  induction a as [|x a IH]; simpl; [reflexivity|].
  now rewrite IH.
Qed.

Lemma string_length_app (a b : string) :
  String.length (a ++ b) = String.length a + String.length b.
Proof.
  induction a as [|x a IH]; simpl; [reflexivity|].
  now rewrite IH.
Qed.

End StringFacts.

(* ================================================================= *)
(** ** [JSON.parse] inverts [JSON.stringify] *)

Module JsonFacts.

Import JsString Json Spec.

(** *** String literals *)

Lemma parse_escape_char (c : ascii) (t : string) :
  parse_string_body (escape_char c ++ t) = cons_char c (parse_string_body t).
Proof.
  destruct c as [[] [] [] [] [] [] [] []]; reflexivity.
Qed.

Lemma parse_escape (s rest : string) :
  parse_string_body (escape s ++ String dquote rest) = Some (s, rest).
Proof.
  induction s as [|c s IH]; simpl.
  - reflexivity.
  - now rewrite string_app_assoc, parse_escape_char, IH.
Qed.

Lemma quote_app (s rest : string) :
  quote s ++ rest = String dquote (escape s ++ String dquote rest).
Proof.
  unfold quote. simpl. now rewrite string_app_assoc.
Qed.

(** *** Numerals *)

Lemma read_digits_stop (rest : string) :
  head_is_digit rest = false -> read_digits rest = (Decimal.Nil, rest).
Proof.
  destruct rest as [|c r]; simpl; [reflexivity|].
  now destruct (digit_of c).
Qed.

Lemma read_digits_string_of_uint (u : Decimal.uint) (rest : string) :
  head_is_digit rest = false ->
  read_digits (NilEmpty.string_of_uint u ++ rest) = (u, rest).
Proof.
  intros Hrest.
  induction u; simpl; try (rewrite IHu; reflexivity).
  now apply read_digits_stop.
Qed.

Lemma to_uint_head (p : positive) :
  match Pos.to_uint p with
  | Decimal.Nil | Decimal.D0 _ => False
  | _ => True
  end.
Proof.
  pose proof (Unsigned.to_of (Pos.to_uint p)) as H.
  rewrite Unsigned.of_to in H. simpl in H.
  pose proof (Unsigned.to_uint_nonzero p) as Hnz.
  pose proof (Unsigned.to_uint_nonnil p) as Hnil.
  destruct (Decimal.nzhead (Pos.to_uint p)) eqn:E;
    try (rewrite unorm_nzhead in H by congruence; rewrite E in H; rewrite H; exact I).
  - apply unorm_0 in E. congruence.
  - exfalso. eapply nzhead_nonzero. exact E.
Qed.

Lemma parse_unsigned_pos (p : positive) (rest : string) :
  head_is_digit rest = false ->
  parse_unsigned (NilEmpty.string_of_uint (Pos.to_uint p) ++ rest) = Some (Z.pos p, rest).
Proof.
  intros Hrest. unfold parse_unsigned.
  rewrite read_digits_string_of_uint by exact Hrest.
  pose proof (to_uint_head p) as Hhead.
  pose proof (Unsigned.of_to p) as Hof.
  destruct (Pos.to_uint p) eqn:E; try contradiction;
    unfold Z.of_uint; rewrite Hof; reflexivity.
Qed.

Lemma parse_value_number (fuel : nat) (c : ascii) (r : string) :
  is_number_start c = true ->
  parse_value (S fuel) (String c r) =
  match parse_number (String c r) with
  | Some (n, rest) => Some (JNum n, rest)
  | None => None
  end.
Proof.
  destruct c as [[] [] [] [] [] [] [] []]; intros H; try discriminate H; reflexivity.
Qed.

Lemma string_of_uint_head (u : Decimal.uint) :
  u <> Decimal.Nil ->
  exists c r, NilEmpty.string_of_uint u = String c r /\
              digit_of c <> None.
Proof.
  destruct u; intros H; try congruence; simpl; eexists; eexists; split;
    try reflexivity; discriminate.
Qed.

Lemma parse_number_to_string (n : Z) (rest : string) :
  head_is_digit rest = false ->
  parse_number (number_to_string n ++ rest) = Some (n, rest).
Proof.
  intros Hrest. unfold number_to_string.
  destruct n as [|p|p]; simpl.
  - unfold parse_unsigned. simpl. now rewrite read_digits_stop.
  - destruct (string_of_uint_head (Pos.to_uint p) (Unsigned.to_uint_nonnil p))
      as (c & r & E & Hc).
    pose proof (parse_unsigned_pos p rest Hrest) as Hp.
    rewrite E in *. simpl in *.
    destruct c as [[] [] [] [] [] [] [] []]; try (exfalso; apply Hc; reflexivity);
      exact Hp.
  - now rewrite parse_unsigned_pos.
Qed.

Lemma number_to_string_head (n : Z) :
  exists c r, number_to_string n = String c r /\ is_number_start c = true.
Proof.
  unfold number_to_string.
  destruct n as [|p|p]; simpl.
  - eexists; eexists; split; reflexivity.
  - destruct (string_of_uint_head (Pos.to_uint p) (Unsigned.to_uint_nonnil p))
      as (c & r & E & Hc).
    exists c, r. split; [exact E|].
    unfold is_number_start. destruct (digit_of c); [apply orb_true_r | congruence].
  - eexists; eexists; split; reflexivity.
Qed.

(** *** Values *)

Lemma number_start_starts_value (c : ascii) (r : string) :
  is_number_start c = true -> starts_value (String c r).
Proof.
  destruct c as [[] [] [] [] [] [] [] []]; intros H; try discriminate H;
    repeat split.
Qed.

Lemma stringify_starts (v : json) (rest : string) : starts_value (stringify v ++ rest).
Proof.
  destruct v as [|[]|n|s|l|ms]; simpl; try (repeat split; fail).
  destruct (number_to_string_head n) as (c & r & E & Hc).
  rewrite E. simpl. now apply number_start_starts_value.
Qed.

Lemma skip_ws_starts (s : string) : starts_value s -> skip_ws s = s.
Proof.
  destruct s as [|c r]; simpl; [easy|].
  now intros (-> & _).
Qed.

Lemma stringify_nonempty (v : json) : 1 <= String.length (stringify v).
Proof.
  pose proof (stringify_starts v "") as H.
  rewrite string_app_nil_r in H.
  destruct (stringify v); simpl in *; [contradiction | lia].
Qed.

Lemma parse_value_array (fuel : nat) (r : string) :
  parse_value (S fuel) (String "[" r) =
  match skip_ws r with
  | EmptyString => None
  | String c' r' =>
      if Ascii.eqb c' "]" then Some (JArr [], r')
      else
        match parse_elements fuel r with
        | Some (elems, rest) => Some (JArr elems, rest)
        | None => None
        end
  end.
Proof. reflexivity. Qed.

Lemma parse_value_object (fuel : nat) (r : string) :
  parse_value (S fuel) (String "{" r) =
  match skip_ws r with
  | EmptyString => None
  | String c' r' =>
      if Ascii.eqb c' "}" then Some (JObj [], r')
      else
        match parse_members fuel r with
        | Some (members, rest) => Some (JObj (build_object members), rest)
        | None => None
        end
  end.
Proof. reflexivity. Qed.

Lemma stringify_array (l : list json) :
  stringify (JArr l) = String "[" (join "," (map stringify l) ++ "]").
Proof. reflexivity. Qed.

Lemma stringify_object (ms : list (string * json)) :
  stringify (JObj ms) = String "{" (join "," (map render_member ms) ++ "}").
Proof. reflexivity. Qed.

Lemma elements_roundtrip (l : list json) :
  Forall roundtrips l -> l <> [] ->
  forall fuel rest,
    String.length (join "," (map stringify l)) + 1 < fuel ->
    parse_elements fuel (join "," (map stringify l) ++ String "]" rest) = Some (l, rest).
Proof.
  induction 1 as [|x l Hx Hl IH]; [congruence|].
  intros _ fuel rest Hfuel.
  destruct fuel as [|fuel]; [lia|].
  pose proof (stringify_nonempty x) as Hlen.
  destruct l as [|y l'].
  - simpl in *.
    rewrite Hx by (lia || reflexivity).
    reflexivity.
  - change (join "," (map stringify (x :: y :: l')))
      with (stringify x ++ "," ++ join "," (map stringify (y :: l'))) in *.
    rewrite string_length_app in Hfuel. simpl String.length in Hfuel.
    rewrite string_app_assoc. simpl parse_elements.
    rewrite Hx by (lia || reflexivity).
    simpl skip_ws. simpl.
    rewrite IH by (try congruence; simpl; lia).
    reflexivity.
Qed.

Lemma quote_length (k : string) : 2 <= String.length (quote k).
Proof.
  unfold quote. simpl. rewrite string_length_app. simpl. lia.
Qed.

Local Arguments quote : simpl never.

Lemma members_roundtrip (ms : list (string * json)) :
  Forall (fun kv => roundtrips (snd kv)) ms -> ms <> [] ->
  forall fuel rest,
    String.length (join "," (map render_member ms)) + 1 < fuel ->
    parse_members fuel (join "," (map render_member ms) ++ String "}" rest) = Some (ms, rest).
Proof.
  induction 1 as [|[k x] ms Hx Hms IH]; [congruence|].
  intros _ fuel rest Hfuel.
  destruct fuel as [|fuel]; [lia|].
  pose proof (stringify_nonempty x) as Hlen.
  pose proof (quote_length k) as Hq.
  simpl in Hx.
  destruct ms as [|m ms'].
  - simpl join in *. unfold render_member in *. simpl fst in *. simpl snd in *.
    rewrite !string_length_app in Hfuel. simpl String.length in Hfuel.
    rewrite !string_app_assoc, quote_app. simpl parse_members.
    rewrite parse_escape. simpl.
    rewrite Hx by (lia || reflexivity).
    reflexivity.
  - change (join "," (map render_member ((k, x) :: m :: ms')))
      with (render_member (k, x) ++ "," ++ join "," (map render_member (m :: ms'))) in *.
    unfold render_member at 1 in Hfuel. unfold render_member at 1.
    simpl fst in *. simpl snd in *.
    rewrite !string_length_app in Hfuel. simpl String.length in Hfuel.
    rewrite !string_app_assoc, quote_app. simpl parse_members.
    rewrite parse_escape. simpl.
    rewrite Hx by (lia || reflexivity).
    simpl.
    rewrite IH by (try congruence; simpl; lia).
    reflexivity.
Qed.

(** *** Objects without repeated keys *)

Lemma has_key_In (k : string) (keys : list string) :
  has_key k keys = true <-> In k keys.
Proof.
  unfold has_key. rewrite existsb_exists. split.
  - intros (x & Hin & Heq). apply String.eqb_eq in Heq. now subst.
  - intros Hin. exists k. split; [exact Hin | apply String.eqb_refl].
Qed.

Lemma distinct_NoDup (keys : list string) : distinct keys = true <-> NoDup keys.
Proof.
  induction keys as [|k keys IH]; simpl.
  - split; [constructor | reflexivity].
  - rewrite andb_true_iff, negb_true_iff, IH. split.
    + intros (Hk & Hnd). constructor; [|exact Hnd].
      intros Hin. apply has_key_In in Hin. congruence.
    + intros Hnd. inversion Hnd as [|? ? Hk Hnd']; subst. split; [|exact Hnd'].
      destruct (has_key k keys) eqn:E; [|reflexivity].
      apply has_key_In in E. contradiction.
Qed.

Lemma obj_set_fresh (k : string) (v : json) (o : list (string * json)) :
  ~ In k (map fst o) -> obj_set k v o = (o ++ [(k, v)])%list.
Proof.
  induction o as [|[k' v'] o IH]; simpl; intros Hk; [reflexivity|].
  destruct (String.eqb_spec k' k) as [->|Hne].
  - exfalso. apply Hk. now left.
  - rewrite IH; [reflexivity|]. intros Hin. apply Hk. now right.
Qed.

Lemma build_from_distinct (ms acc : list (string * json)) :
  NoDup (map fst (acc ++ ms)%list) ->
  fold_left (fun o kv => obj_set (fst kv) (snd kv) o) ms acc = (acc ++ ms)%list.
Proof.
  revert acc. induction ms as [|[k v] ms IH]; intros acc Hnd; simpl.
  - now rewrite List.app_nil_r.
  - rewrite obj_set_fresh.
    + rewrite IH; rewrite <- List.app_assoc; [reflexivity | exact Hnd].
    + rewrite map_app in Hnd. simpl in Hnd.
      apply NoDup_remove_2 in Hnd. intros Hin. apply Hnd.
      apply in_or_app. now left.
Qed.

Lemma build_object_distinct (ms : list (string * json)) :
  distinct (map fst ms) = true -> build_object ms = ms.
Proof.
  intros H. apply distinct_NoDup in H.
  unfold build_object. now rewrite build_from_distinct.
Qed.

(** *** The round trip *)

Lemma stringify_roundtrips (v : json) : serializable v = true -> roundtrips v.
Proof.
  induction v as [|b|n|s|l IH|ms IH] using json_ind; intros Hv fuel rest Hfuel Hrest;
    (destruct fuel as [|fuel]; [lia|]).
  - reflexivity.
  - destruct b; reflexivity.
  - destruct (number_to_string_head n) as (c & r & E & Hc).
    pose proof (parse_number_to_string n rest Hrest) as Hp.
    simpl stringify. rewrite E in *. simpl String.append in *.
    rewrite parse_value_number by exact Hc.
    now rewrite Hp.
  - simpl stringify. rewrite quote_app. simpl.
    now rewrite parse_escape.
  - simpl in Hv.
    assert (Hall : Forall roundtrips l).
    { rewrite forallb_forall in Hv. rewrite Forall_forall in *. auto. }
    rewrite stringify_array in *.
    cbn [String.length] in Hfuel. rewrite string_length_app in Hfuel.
    cbn [String.length] in Hfuel.
    cbn [String.append]. rewrite string_app_assoc.
    change ("]" ++ rest) with (String "]" rest).
    destruct l as [|x l'].
    + reflexivity.
    + pose proof (stringify_starts x) as Hstart.
      assert (Hs : starts_value
                (join "," (map stringify (x :: l')) ++ String "]" rest)).
      { destruct l' as [|y l'']; simpl join.
        - apply Hstart.
        - rewrite string_app_assoc. apply Hstart. }
      rewrite parse_value_array, (skip_ws_starts _ Hs).
      destruct (join "," (map stringify (x :: l')) ++ String "]" rest) as [|c r] eqn:E;
        [contradiction|].
      destruct Hs as (_ & -> & _).
      rewrite <- E.
      rewrite (elements_roundtrip (x :: l') Hall) by (congruence || lia).
      reflexivity.
  - simpl in Hv. apply andb_true_iff in Hv as (Hkeys & Hvals).
    assert (Hall : Forall (fun kv => roundtrips (snd kv)) ms).
    { rewrite forallb_forall in Hvals. rewrite Forall_forall in *. auto. }
    rewrite stringify_object in *.
    cbn [String.length] in Hfuel. rewrite string_length_app in Hfuel.
    cbn [String.length] in Hfuel.
    cbn [String.append]. rewrite string_app_assoc.
    change ("}" ++ rest) with (String "}" rest).
    destruct ms as [|[k x] ms'].
    + reflexivity.
    + assert (Hs : exists r, join "," (map render_member ((k, x) :: ms')) ++ String "}" rest
                             = String dquote r).
      { destruct ms' as [|m ms'']; simpl join; unfold render_member at 1; simpl fst;
          unfold quote; simpl; eexists; reflexivity. }
      destruct Hs as (r & E).
      rewrite parse_value_object, E. simpl skip_ws. cbv iota beta.
      change (Ascii.eqb dquote "}") with false. cbv iota.
      rewrite <- E.
      rewrite (members_roundtrip ((k, x) :: ms') Hall) by (congruence || lia).
      now rewrite build_object_distinct.
Qed.

Theorem parse_stringify (v : json) :
  serializable v = true -> Json.parse (stringify v) = Some v.
Proof.
  intros Hv. unfold Json.parse.
  pose proof (stringify_roundtrips v Hv (S (String.length (stringify v))) "") as H.
  rewrite string_app_nil_r in H.
  now rewrite H by (lia || reflexivity).
Qed.


(** *** What [JSON.parse] returns is serializable *)

Lemma obj_set_keys (k : string) (v : json) (o : list (string * json)) :
  forall k', In k' (map fst (obj_set k v o)) -> k' = k \/ In k' (map fst o).
Proof.
  induction o as [|[k0 v0] o IH]; simpl; intros k' Hin.
  - destruct Hin as [<-|[]]. now left.
  - destruct (String.eqb k0 k); simpl in Hin.
    + right. exact Hin.
    + destruct Hin as [<-|Hin]; [right; now left|].
      apply IH in Hin. destruct Hin; [now left | right; now right].
Qed.

Lemma obj_set_NoDup (k : string) (v : json) (o : list (string * json)) :
  NoDup (map fst o) -> NoDup (map fst (obj_set k v o)).
Proof.
  induction o as [|[k0 v0] o IH]; simpl; intros Hnd.
  - constructor; [easy | constructor].
  - inversion Hnd as [|? ? Hk0 Hnd']; subst.
    destruct (String.eqb_spec k0 k) as [->|Hne]; simpl.
    + constructor; assumption.
    + constructor; [|now apply IH].
      intros Hin. apply obj_set_keys in Hin. destruct Hin; [congruence | contradiction].
Qed.

Lemma obj_set_values (k : string) (v : json) (o : list (string * json)) :
  serializable v = true ->
  forallb (fun kv => serializable (snd kv)) o = true ->
  forallb (fun kv => serializable (snd kv)) (obj_set k v o) = true.
Proof.
  intros Hv. induction o as [|[k0 v0] o IH]; simpl; intros Ho.
  - now rewrite Hv.
  - apply andb_true_iff in Ho as (H0 & Ho).
    destruct (String.eqb k0 k); simpl.
    + now rewrite Hv, Ho.
    + now rewrite H0, IH.
Qed.

Lemma build_object_serializable (ms : list (string * json)) :
  forallb (fun kv => serializable (snd kv)) ms = true ->
  serializable (JObj (build_object ms)) = true.
Proof.
  intros Hms. unfold build_object.
  assert (H : forall acc,
             NoDup (map fst acc) ->
             forallb (fun kv => serializable (snd kv)) acc = true ->
             let o := fold_left (fun o kv => obj_set (fst kv) (snd kv) o) ms acc in
             NoDup (map fst o) /\ forallb (fun kv => serializable (snd kv)) o = true).
  { induction ms as [|[k v] ms IH]; simpl; intros acc Hnd Hacc; [now split|].
    apply andb_true_iff in Hms as (Hv & Hms).
    apply IH; [exact Hms | now apply obj_set_NoDup | now apply obj_set_values]. }
  destruct (H [] (NoDup_nil _) eq_refl) as (Hnd & Hvals).
  simpl. apply andb_true_iff. split; [now apply distinct_NoDup | exact Hvals].
Qed.

Lemma parse_value_unfold (fuel : nat) (s : string) :
  parse_value (S fuel) s =
  match skip_ws s with
  | EmptyString => None
  | String c r =>
      if Ascii.eqb c "n" then parse_literal "null" JNull (String c r)
      else if Ascii.eqb c "t" then parse_literal "true" (JBool true) (String c r)
      else if Ascii.eqb c "f" then parse_literal "false" (JBool false) (String c r)
      else if Ascii.eqb c dquote then
        match parse_string_body r with
        | Some (str, rest) => Some (JStr str, rest)
        | None => None
        end
      else if Ascii.eqb c "[" then
        match skip_ws r with
        | EmptyString => None
        | String c' r' =>
            if Ascii.eqb c' "]" then Some (JArr [], r')
            else
              match parse_elements fuel r with
              | Some (elems, rest) => Some (JArr elems, rest)
              | None => None
              end
        end
      else if Ascii.eqb c "{" then
        match skip_ws r with
        | EmptyString => None
        | String c' r' =>
            if Ascii.eqb c' "}" then Some (JObj [], r')
            else
              match parse_members fuel r with
              | Some (members, rest) => Some (JObj (build_object members), rest)
              | None => None
              end
        end
      else
        match parse_number (String c r) with
        | Some (n, rest) => Some (JNum n, rest)
        | None => None
        end
  end.
Proof. reflexivity. Qed.

Lemma parse_literal_value (lit : string) (v0 v : json) (s r : string) :
  parse_literal lit v0 s = Some (v, r) -> v = v0.
Proof.
  unfold parse_literal. destruct (strip_prefix lit s); congruence.
Qed.

Lemma parse_serializable_fuel (fuel : nat) :
  (forall s v r, parse_value fuel s = Some (v, r) -> serializable v = true) /\
  (forall s l r, parse_elements fuel s = Some (l, r) -> forallb serializable l = true) /\
  (forall s ms r, parse_members fuel s = Some (ms, r) ->
                  forallb (fun kv => serializable (snd kv)) ms = true).
Proof.
  induction fuel as [|fuel (IHv & IHe & IHm)]; [repeat split; discriminate|].
  repeat split.
  - intros s v r. rewrite parse_value_unfold.
    destruct (skip_ws s) as [|c r0]; [discriminate|].
    destruct (Ascii.eqb c "n");
      [intros H; apply parse_literal_value in H; now subst|].
    destruct (Ascii.eqb c "t");
      [intros H; apply parse_literal_value in H; now subst|].
    destruct (Ascii.eqb c "f");
      [intros H; apply parse_literal_value in H; now subst|].
    destruct (Ascii.eqb c dquote).
    { destruct (parse_string_body r0) as [[str rest]|]; intros [= <- _]; reflexivity. }
    destruct (Ascii.eqb c "[").
    { destruct (skip_ws r0) as [|c' r']; [discriminate|].
      destruct (Ascii.eqb c' "]"); [intros [= <- _]; reflexivity|].
      destruct (parse_elements fuel r0) as [[elems rest]|] eqn:E; intros [= <- _].
      simpl. eapply IHe. exact E. }
    destruct (Ascii.eqb c "{").
    { destruct (skip_ws r0) as [|c' r']; [discriminate|].
      destruct (Ascii.eqb c' "}"); [intros [= <- _]; reflexivity|].
      destruct (parse_members fuel r0) as [[members rest]|] eqn:E; intros [= <- _].
      apply build_object_serializable. eapply IHm. exact E. }
    destruct (parse_number (String c r0)) as [[n rest]|]; intros [= <- _]; reflexivity.
  - intros s l r. simpl.
    destruct (parse_value fuel s) as [[v r0]|] eqn:Ev; [|discriminate].
    destruct (skip_ws r0) as [|c r']; [discriminate|].
    destruct (Ascii.eqb c ",").
    { destruct (parse_elements fuel r') as [[vs rest]|] eqn:Ee; intros [= <- _].
      simpl. rewrite (IHv _ _ _ Ev), (IHe _ _ _ Ee). reflexivity. }
    destruct (Ascii.eqb c "]"); intros [= <- _].
    simpl. now rewrite (IHv _ _ _ Ev).
  - intros s ms r. simpl.
    destruct (skip_ws s) as [|q0 r0]; [discriminate|].
    destruct (Ascii.eqb q0 dquote); [|discriminate].
    destruct (parse_string_body r0) as [[k r1]|]; [|discriminate].
    destruct (skip_ws r1) as [|colon r2]; [discriminate|].
    destruct (Ascii.eqb colon ":"); [|discriminate].
    destruct (parse_value fuel r2) as [[v r3]|] eqn:Ev; [|discriminate].
    destruct (skip_ws r3) as [|c r4]; [discriminate|].
    destruct (Ascii.eqb c ",").
    { destruct (parse_members fuel r4) as [[ms' rest]|] eqn:Em; intros [= <- _].
      simpl. rewrite (IHv _ _ _ Ev), (IHm _ _ _ Em). reflexivity. }
    destruct (Ascii.eqb c "}"); intros [= <- _].
    simpl. now rewrite (IHv _ _ _ Ev).
Qed.

Theorem parse_serializable (text : string) (v : json) :
  Json.parse text = Some v -> serializable v = true.
Proof.
  unfold Json.parse.
  destruct (parse_value (S (String.length text)) text) as [[v0 rest]|] eqn:E;
    [|discriminate].
  destruct (skip_ws rest); intros [= <-].
  eapply parse_serializable_fuel. exact E.
Qed.

(** Rendering what was parsed gives valid JSON text again. *)
Corollary parse_stringify_parse (text : string) (v : json) :
  Json.parse text = Some v -> Json.parse (stringify v) = Some v.
Proof.
  intros H. apply parse_stringify. eapply parse_serializable. exact H.
Qed.


End JsonFacts.

(* ================================================================= *)
(** ** The schema translator *)

Section TranslatorFacts.

Import Json OpenAI ToolConversion Spec.

(** C8.  Round trip of a tool invocation: for a canonical invocation whose
    [args] is a JSON-serializable object, translating it to wire form with
    [convertGeminiFunctionCallToOpenAI] and back with
    [convertOpenAIToolCallToGemini] gives an invocation with the same name
    and with the same [args] value. *)
Theorem C8_tool_invocation_round_trip
  (generated : string) (functionCall : FunctionCall) (callId : option string)
  (members : list (string * json)) :
  fc_args functionCall = Some (JObj members) ->
  serializable (JObj members) = true ->
  let back :=
    convertOpenAIToolCallToGemini
      (convertGeminiFunctionCallToOpenAI generated functionCall callId) in
  fc_name back = fc_name functionCall /\ fc_args back = fc_args functionCall.
Proof.
  intros Hargs Hser. simpl. split; [reflexivity|].
  unfold convertOpenAIToolCallToGemini, convertGeminiFunctionCallToOpenAI.
  cbn [arguments function fc_args].
  rewrite Hargs. cbn [args_or_empty Json.truthy].
  now rewrite (JsonFacts.parse_stringify (JObj members) Hser).
Qed.

Lemma C8_tool_invocation_round_trip_witness :
  let fc := {| fc_id := None; fc_name := "read_file";
               fc_args := Some (JObj [("path", JStr "a/b.txt"); ("limit", JNum 20)]) |} in
  let back :=
    convertOpenAIToolCallToGemini (convertGeminiFunctionCallToOpenAI "call_1_x" fc None) in
  fc_name back = "read_file" /\ fc_args back = fc_args fc.
Proof.
  exact (C8_tool_invocation_round_trip "call_1_x"
           {| fc_id := None; fc_name := "read_file";
              fc_args := Some (JObj [("path", JStr "a/b.txt"); ("limit", JNum 20)]) |}
           None [("path", JStr "a/b.txt"); ("limit", JNum 20)] eq_refl eq_refl).
Defined.

(** An invocation without [args] comes back with the empty object. *)
Lemma round_trip_without_args (generated : string) (functionCall : FunctionCall)
  (callId : option string) :
  fc_args functionCall = None ->
  fc_args (convertOpenAIToolCallToGemini
             (convertGeminiFunctionCallToOpenAI generated functionCall callId))
  = Some (JObj []).
Proof.
  intros Hargs.
  unfold convertOpenAIToolCallToGemini, convertGeminiFunctionCallToOpenAI.
  cbn [arguments function fc_args]. now rewrite Hargs.
Qed.

(** The value the facade renders when it sends an invocation back to the
    server: [JSON.stringify(fc.args || {})]. *)
Lemma args_or_empty_serializable (v : json) :
  serializable v = true -> serializable (args_or_empty (Some v)) = true.
Proof.
  intros Hv. simpl. now destruct (Json.truthy v).
Qed.

End TranslatorFacts.

(* ================================================================= *)
(** ** Model discovery *)

Section StringSuffixFacts.

Import JsString.

Lemma substring_slice (n : nat) (s : string) :
  String.substring 0 n s ++ slice n s = s.
Proof.
  revert s. induction n as [|n IH]; intros [|c s]; simpl; try reflexivity.
  now rewrite IH.
Qed.

Lemma substring_app_prefix (a p : string) :
  String.substring 0 (String.length a) (a ++ p) = a.
Proof.
  induction a as [|c a IH]; simpl.
  - now destruct p.
  - now rewrite IH.
Qed.

Lemma slice_app_prefix (a p : string) : slice (String.length a) (a ++ p) = p.
Proof.
  induction a as [|c a IH]; simpl; [reflexivity | exact IH].
Qed.

Lemma endsWith_app (a p : string) : endsWith (a ++ p) p = true.
Proof.
  unfold endsWith. rewrite string_length_app.
  replace (String.length a + String.length p - String.length p) with (String.length a) by lia.
  rewrite slice_app_prefix, String.eqb_refl, andb_true_r.
  apply Nat.leb_le. lia.
Qed.

Lemma endsWith_inv (s p : string) :
  endsWith s p = true ->
  s = String.substring 0 (String.length s - String.length p) s ++ p.
Proof.
  unfold endsWith. intros H. apply andb_true_iff in H as (_ & H).
  apply String.eqb_eq in H.
  pose proof (substring_slice (String.length s - String.length p) s) as E.
  rewrite H in E. now symmetry.
Qed.

Lemma remove_suffix_app (a p : string) : remove_suffix p (a ++ p) = a.
Proof.
  unfold remove_suffix. rewrite endsWith_app, string_length_app.
  replace (String.length a + String.length p - String.length p) with (String.length a) by lia.
  apply substring_app_prefix.
Qed.

(** After the suffix is removed once, it is still there exactly when it was
    there twice. *)
Lemma endsWith_remove_suffix (p s : string) :
  endsWith (remove_suffix p s) p = endsWith s (p ++ p).
Proof.
  destruct (endsWith s (p ++ p)) eqn:Etwice.
  - apply endsWith_inv in Etwice.
    rewrite Etwice, <- string_app_assoc, remove_suffix_app.
    apply endsWith_app.
  - destruct (endsWith (remove_suffix p s) p) eqn:Eonce; [|reflexivity].
    unfold remove_suffix in Eonce.
    destruct (endsWith s p) eqn:Es.
    + apply endsWith_inv in Es. apply endsWith_inv in Eonce.
      rewrite Eonce, string_app_assoc in Es.
      rewrite Es, endsWith_app in Etwice. discriminate.
    + congruence.
Qed.

Lemma contains_substring (c : ascii) (n : nat) (s : string) :
  contains c s = false -> contains c (String.substring 0 n s) = false.
Proof.
  revert n. induction s as [|d s IH]; intros [|n]; simpl; try reflexivity.
  intros H. apply orb_false_iff in H as (Hd & Hs).
  now rewrite Hd, IH.
Qed.

Lemma contains_remove_suffix (c : ascii) (p s : string) :
  contains c s = false -> contains c (remove_suffix p s) = false.
Proof.
  intros H. unfold remove_suffix.
  destruct (endsWith s p); [now apply contains_substring | exact H].
Qed.

Lemma split_from_no_separator (sep : ascii) (s : string) :
  contains sep (fst (split_from sep s)) = false /\
  Forall (fun piece => contains sep piece = false) (snd (split_from sep s)).
Proof.
  induction s as [|c s (IHcur & IHrest)]; simpl.
  - split; [reflexivity | constructor].
  - destruct (split_from sep s) as [cur rest]. simpl in *.
    destruct (Ascii.eqb c sep) eqn:E; simpl.
    + split; [reflexivity | now constructor].
    + rewrite E. now split.
Qed.

Lemma split_no_separator (sep : ascii) (s : string) :
  Forall (fun piece => contains sep piece = false) (split sep s).
Proof.
  unfold split. pose proof (split_from_no_separator sep s) as (Hcur & Hrest).
  destruct (split_from sep s) as [cur rest]. now constructor.
Qed.

Lemma last_Forall {A : Type} (P : A -> Prop) (l : list A) (d : A) :
  P d -> Forall P l -> P (last l d).
Proof.
  intros Hd. induction 1 as [|x l Hx Hl IH]; [exact Hd|].
  destruct l; [exact Hx | exact IH].
Qed.

End StringSuffixFacts.

Section DiscoveryFacts.

Import JsString OpenAI LlamaCppClient Spec.

(** The pattern match of [extractModelName] changes nothing: when it
    matches, [match[0]] is the whole name. *)
Lemma extractModelName_eq (modelPath : string) :
  extractModelName modelPath =
  remove_suffix ".gguf" (last (split "/" modelPath) EmptyString).
Proof.
  unfold extractModelName, brand_model_match.
  destruct (remove_suffix ".gguf" (last (split "/" modelPath) EmptyString)) as [|c s];
    [reflexivity|].
  now destruct (negb (has_line_terminator (String c s)) && separator_before_more s).
Qed.

Lemma extractModelName_no_separator (modelPath : string) :
  contains "/" (extractModelName modelPath) = false.
Proof.
  rewrite extractModelName_eq. apply contains_remove_suffix.
  apply last_Forall; [reflexivity | apply split_no_separator].
Qed.

Lemma initialize_selects (this : Client) (response : ModelsResponse)
  (m : LlamaCppModelsResponse) (raw : string) :
  models_ok response = true ->
  models_json response = inr m ->
  first_listed m = Some raw ->
  initialize this (inr response) =
  ({| baseUrl := baseUrl this; model := raw; displayName := extractModelName raw |}, None).
Proof.
  intros Hok Hjson Hfirst. unfold initialize. rewrite Hok, Hjson. simpl.
  unfold first_listed in Hfirst.
  destruct (models m) as [[|first rest]|].
  - destruct (data m) as [[|first' rest']|]; try discriminate.
    now injection Hfirst as <-.
  - now injection Hfirst as <-.
  - destruct (data m) as [[|first' rest']|]; try discriminate.
    now injection Hfirst as <-.
Qed.

(** C6.  A models list with no entry in either shape: [initialize] throws
    (the error the specification calls [DiscoveryError] is
    [Error('No models available from llama.cpp server')]) and leaves the
    client as it was, so the active model of a new client stays unset. *)
Theorem C6_initialize_fails_without_models
  (url : string) (response : ModelsResponse) (m : LlamaCppModelsResponse) :
  models_ok response = true ->
  models_json response = inr m ->
  no_entries (models m) = true ->
  no_entries (data m) = true ->
  initialize (constructor url) (inr response) =
    (constructor url, Some (Error "No models available from llama.cpp server"))
  /\ model (fst (initialize (constructor url) (inr response))) = EmptyString.
Proof.
  intros Hok Hjson Hmodels Hdata.
  assert (E : initialize (constructor url) (inr response) =
              (constructor url, Some (Error "No models available from llama.cpp server"))).
  { unfold initialize. rewrite Hok, Hjson. simpl.
    destruct (models m) as [[|? ?]|]; try discriminate;
      destruct (data m) as [[|? ?]|]; try discriminate; reflexivity. }
  rewrite E. split; reflexivity.
Qed.

Lemma C6_initialize_fails_without_models_witness :
  let response := {| models_ok := true; models_status := 200%Z; models_statusText := "OK";
                     models_json := inr {| models := Some []; data := None |} |} in
  initialize (constructor "http://localhost:8080/") (inr response) =
    (constructor "http://localhost:8080/",
     Some (Error "No models available from llama.cpp server"))
  /\ model (fst (initialize (constructor "http://localhost:8080/") (inr response)))
     = EmptyString.
Proof.
  exact (C6_initialize_fails_without_models "http://localhost:8080/"
           {| models_ok := true; models_status := 200%Z; models_statusText := "OK";
              models_json := inr {| models := Some []; data := None |} |}
           {| models := Some []; data := None |} eq_refl eq_refl eq_refl eq_refl).
Defined.

(** C7 fails as stated: the extension is removed once, so the display name
    of a file called [m.gguf.gguf] still ends with [.gguf]. *)
Lemma C7_counterexample :
  let response :=
    {| models_ok := true; models_status := 200%Z; models_statusText := "OK";
       models_json := inr {| models := Some [ {| model_name := "/models/m.gguf.gguf" |} ];
                             data := None |} |} in
  let after := fst (initialize (constructor "http://localhost:8080") (inr response)) in
  snd (initialize (constructor "http://localhost:8080") (inr response)) = None
  /\ model after = "/models/m.gguf.gguf"
  /\ displayName after = "m.gguf"
  /\ endsWith (displayName after) ".gguf" = true.
Proof.
  repeat split.
Qed.

(** C7, as the code has it.  For a models list with an entry, [initialize]
    succeeds and selects element 0 of the [models] shape, else of the [data]
    shape; the display name is the last path component of the identifier
    with one [.gguf] suffix removed: it contains no [/], and it ends with
    [.gguf] exactly when the file name ended with [.gguf.gguf]. *)
Theorem C7_initialize_selects_first_model
  (this : Client) (response : ModelsResponse) (m : LlamaCppModelsResponse) (raw : string) :
  models_ok response = true ->
  models_json response = inr m ->
  first_listed m = Some raw ->
  let filename := last (split "/" raw) EmptyString in
  let after := fst (initialize this (inr response)) in
  snd (initialize this (inr response)) = None
  /\ model after = raw
  /\ displayName after = remove_suffix ".gguf" filename
  /\ contains "/" (displayName after) = false
  /\ endsWith (displayName after) ".gguf" = endsWith filename ".gguf.gguf".
Proof.
  intros Hok Hjson Hfirst. cbv zeta.
  rewrite (initialize_selects this response m raw Hok Hjson Hfirst).
  cbn [fst snd model displayName].
  repeat split.
  - apply extractModelName_eq.
  - apply extractModelName_no_separator.
  - rewrite extractModelName_eq. apply (endsWith_remove_suffix ".gguf").
Qed.

Lemma C7_initialize_selects_first_model_witness :
  let m := {| models := Some [];
              data := Some [ {| model_id := "/mnt/GGUF/google/gemma-3-27b-it.Q8_0.gguf" |} ] |} in
  let response := {| models_ok := true; models_status := 200%Z; models_statusText := "OK";
                     models_json := inr m |} in
  let after := fst (initialize (constructor "http://localhost:8080") (inr response)) in
  snd (initialize (constructor "http://localhost:8080") (inr response)) = None
  /\ model after = "/mnt/GGUF/google/gemma-3-27b-it.Q8_0.gguf"
  /\ displayName after =
       remove_suffix ".gguf"
         (last (split "/" "/mnt/GGUF/google/gemma-3-27b-it.Q8_0.gguf") EmptyString)
  /\ contains "/" (displayName after) = false
  /\ endsWith (displayName after) ".gguf" =
       endsWith (last (split "/" "/mnt/GGUF/google/gemma-3-27b-it.Q8_0.gguf") EmptyString)
                ".gguf.gguf".
Proof.
  exact (C7_initialize_selects_first_model (constructor "http://localhost:8080")
           {| models_ok := true; models_status := 200%Z; models_statusText := "OK";
              models_json :=
                inr {| models := Some [];
                       data := Some [ {| model_id :=
                                           "/mnt/GGUF/google/gemma-3-27b-it.Q8_0.gguf" |} ] |} |}
           {| models := Some [];
              data := Some [ {| model_id := "/mnt/GGUF/google/gemma-3-27b-it.Q8_0.gguf" |} ] |}
           "/mnt/GGUF/google/gemma-3-27b-it.Q8_0.gguf" eq_refl eq_refl eq_refl).
Defined.

End DiscoveryFacts.

(* ================================================================= *)
(** ** The token estimate *)

Section TokenFacts.

Import JsString ContentGenerator Spec.

Lemma ceil_quarter_spec (n : nat) : ceil_quarter n = (n + 3) / 4.
Proof.
  unfold ceil_quarter.
  pose proof (Nat.div_mod_eq n 4) as Hn.
  pose proof (Nat.mod_upper_bound n 4 ltac:(lia)) as Hlt.
  destruct (Nat.eqb_spec (n mod 4) 0) as [E|E].
  - apply (Nat.div_unique (n + 3) 4 (n / 4) 3); lia.
  - apply (Nat.div_unique (n + 3) 4 (S (n / 4)) (n mod 4 - 1)); lia.
Qed.

Lemma join_length (parts : list string) :
  String.length (join " " parts) =
  sum (map String.length parts) + (List.length parts - 1).
Proof.
  induction parts as [|p parts IH]; [reflexivity|].
  destruct parts as [|p' parts'].
  - simpl. lia.
  - change (join " " (p :: p' :: parts')) with (p ++ " " ++ join " " (p' :: parts')).
    rewrite !string_length_app, IH. simpl. lia.
Qed.

Lemma content_text_length (content : ContentUnion) :
  String.length (content_text content ++ " ") = characters content + separators content.
Proof.
  rewrite string_length_app. simpl String.length.
  destruct content as [s|role [parts|]|p]; simpl; try lia.
  rewrite join_length, !List.length_map, List.map_map. lia.
Qed.

Lemma contentText_length (l : list ContentUnion) (acc : string) :
  String.length
    (fold_left (fun acc content => acc ++ (content_text content ++ " ")) l acc) =
  String.length acc + sum (map characters l) + sum (map separators l).
Proof.
  revert acc. induction l as [|c l IH]; intros acc; simpl.
  - lia.
  - rewrite IH, string_length_app, content_text_length. lia.
Qed.

(** C9 fails as stated: the single text [abcd] has four characters, and the
    estimate is 2, not [ceil(4 / 4) = 1]. *)
Lemma C9_counterexample :
  let request := {| contents := One (OfString "abcd") |} in
  total_characters request = 4
  /\ totalTokens (countTokens request) = 2
  /\ totalTokens (countTokens request) <> ceil_quarter (total_characters request).
Proof.
  repeat split. discriminate.
Qed.

(** C9, as the code has it.  The estimate is the ceiling of a quarter of the
    length of the text [countTokens] builds: all the characters of the
    textual content, one space after every element of the request and one
    space between two parts of a [Content]. *)
Theorem C9_token_estimate (request : CountTokensParameters) :
  totalTokens (countTokens request) =
  ceil_quarter (total_characters request + total_separators request).
Proof.
  unfold countTokens, total_characters, total_separators, contents_list.
  cbn [totalTokens]. now rewrite contentText_length.
Qed.

End TokenFacts.

(* ================================================================= *)
(** ** The streaming call *)

(** *** From the transport to the decoded payloads *)

Section TransportFacts.

Import JsString OpenAI LlamaCppClient Spec.

Lemma split_cons (sep c : ascii) (s : string) :
  split sep (String c s) =
  if Ascii.eqb c sep then EmptyString :: split sep s
  else String c (hd EmptyString (split sep s)) :: tl (split sep s).
Proof.
  unfold split. simpl. destruct (split_from sep s) as [cur rest].
  now destruct (Ascii.eqb c sep).
Qed.

Lemma split_nonempty (sep : ascii) (s : string) : split sep s <> [].
Proof.
  unfold split. now destruct (split_from sep s).
Qed.

Lemma split_without_separator (sep : ascii) (s : string) :
  contains sep s = false -> split sep s = [s].
Proof.
  induction s as [|c s IH]; [reflexivity|].
  simpl. intros H. apply orb_false_iff in H as (Hc & Hs).
  rewrite split_cons, Hc, IH by exact Hs. reflexivity.
Qed.

(** Splitting a text that goes on: the complete pieces stay, the last piece
    is continued. *)
Lemma split_app (sep : ascii) (a b : string) :
  split sep (a ++ b) =
  (removelast (split sep a) ++ split sep (last (split sep a) EmptyString ++ b))%list.
Proof.
  induction a as [|c a IH]; [reflexivity|].
  change (String c a ++ b) with (String c (a ++ b)).
  rewrite !split_cons, IH.
  pose proof (split_nonempty sep a) as Hne.
  destruct (Ascii.eqb c sep) eqn:E.
  - destruct (split sep a) as [|h t]; [congruence|]. reflexivity.
  - destruct (split sep a) as [|h [|x t]]; [congruence| |].
    + cbn [removelast last List.app hd tl].
      change (String c h ++ b) with (String c (h ++ b)).
      now rewrite split_cons, E.
    + reflexivity.
Qed.

Lemma last_split_no_separator (sep : ascii) (s : string) :
  contains sep (last (split sep s) EmptyString) = false.
Proof.
  apply (last_Forall (fun piece => contains sep piece = false));
    [reflexivity | apply split_no_separator].
Qed.

Variable parseChunk : string -> option Chunk.OpenAIChatCompletionResponse.

Lemma process_lines_app (l1 l2 : list string) (st : StreamState) :
  process_lines parseChunk (l1 ++ l2) st =
  match process_lines parseChunk l1 st with
  | Return st' => Return st'
  | Continue st' => process_lines parseChunk l2 st'
  end.
Proof.
  revert st. induction l1 as [|l l1 IH]; intros st; simpl; [reflexivity|].
  destruct (process_line parseChunk l st); [reflexivity | apply IH].
Qed.

(** The read loop processes the complete lines of the whole text, whatever
    the pieces it arrives in. *)
Lemma read_loop_lines (reads : list string) (buffer : string) (st : StreamState) :
  contains newline buffer = false ->
  read_loop parseChunk reads buffer st =
  process_lines parseChunk
    (removelast (split newline (buffer ++ concat_all reads))) st.
Proof.
  revert buffer st. induction reads as [|value reads IH]; intros buffer st Hbuf.
  - simpl. rewrite string_app_nil_r, split_without_separator by exact Hbuf. reflexivity.
  - cbn [read_loop concat_all].
    rewrite <- string_app_assoc, (split_app newline (buffer ++ value)).
    rewrite removelast_app by apply split_nonempty.
    rewrite process_lines_app.
    destruct (process_lines parseChunk (removelast (split newline (buffer ++ value))) st)
      as [st'|st']; [reflexivity|].
    apply IH, last_split_no_separator.
Qed.

Lemma process_lines_payloads (lines : list string) (st : StreamState) :
  process_lines parseChunk lines st =
  process_payloads (payloads_of_lines parseChunk lines) st.
Proof.
  revert st. induction lines as [|l lines IH]; intros st; [reflexivity|].
  cbn [process_lines payloads_of_lines flat_map]. unfold process_line.
  destruct (payload_of_line parseChunk l) as [p|]; cbn [List.app process_payloads].
  - destruct (process_payload p st); [reflexivity | apply IH].
  - apply IH.
Qed.

Lemma read_loop_payloads (reads : list string) :
  read_loop parseChunk reads EmptyString initial =
  process_payloads (transport_payloads parseChunk reads) initial.
Proof.
  rewrite read_loop_lines by reflexivity.
  apply process_lines_payloads.
Qed.

(** The streaming call runs the line loop on the complete lines of the
    transport, then the closing logic unless the generator has returned. *)
Lemma chatCompletionStream_lines (reads : list string) :
  chatCompletionStream parseChunk (streaming reads) =
  Completed
    (yielded (finish (process_lines parseChunk (complete_lines reads) initial)))
    (warnings (finish (process_lines parseChunk (complete_lines reads) initial))).
Proof.
  unfold chatCompletionStream, complete_lines. cbn [ok body streaming negb].
  now rewrite read_loop_lines by reflexivity.
Qed.

(** The streaming call is the assembler run on the payloads decoded from the
    transport. *)
Theorem chatCompletionStream_assemble (reads : list string) :
  chatCompletionStream parseChunk (streaming reads) =
  Completed (yielded (assemble (transport_payloads parseChunk reads)))
            (warnings (assemble (transport_payloads parseChunk reads))).
Proof.
  unfold chatCompletionStream, assemble. cbn [ok body streaming negb].
  now rewrite read_loop_payloads.
Qed.

End TransportFacts.

(** *** The assembler *)

Section AssemblerFacts.

Import JsString OpenAI LlamaCppClient Spec.

(** Tool-call deltas neither yield nor log. *)
Lemma process_tool_call_delta_yielded (d : Chunk.ToolCallDelta) (st : StreamState) :
  yielded (process_tool_call_delta d st) = yielded st /\
  warnings (process_tool_call_delta d st) = warnings st.
Proof.
  unfold process_tool_call_delta.
  destruct (announced_id d); cbn [currentToolCall]; [now split|].
  destruct (currentToolCall st); now split.
Qed.

Lemma process_tool_call_deltas_yielded (ds : list Chunk.ToolCallDelta) (st : StreamState) :
  yielded (fold_left (fun s d => process_tool_call_delta d s) ds st) = yielded st /\
  warnings (fold_left (fun s d => process_tool_call_delta d s) ds st) = warnings st.
Proof.
  revert st. induction ds as [|d ds IH]; intros st; simpl; [now split|].
  destruct (IH (process_tool_call_delta d st)) as (-> & ->).
  apply process_tool_call_delta_yielded.
Qed.

(** A chunk yields its text, if it has one, and nothing else. *)
Lemma process_chunk_yielded (chunk : Chunk.OpenAIChatCompletionResponse) (st : StreamState) :
  yielded (process_chunk chunk st) = (yielded st ++ map Text (chunk_text chunk))%list.
Proof.
  unfold process_chunk, chunk_text.
  destruct (first_delta chunk) as [delta|]; [|now rewrite List.app_nil_r].
  assert (H : yielded match Chunk.content delta with
                      | Some text => if truthy text then yield (Text text) st else st
                      | None => st
                      end
              = (yielded st ++
                 map Text match Chunk.content delta with
                          | Some t => if truthy t then [t] else []
                          | None => []
                          end)%list).
  { destruct (Chunk.content delta) as [t|]; [destruct (truthy t)|];
      simpl; now rewrite ?List.app_nil_r. }
  destruct (Chunk.tool_calls delta) as [ds|]; [|exact H].
  now rewrite (proj1 (process_tool_call_deltas_yielded ds _)).
Qed.

Lemma emit_tool_calls_yielded (st : StreamState) :
  yielded (emit_tool_calls st) = (yielded st ++ closing_batch st)%list /\
  warnings (emit_tool_calls st) = warnings st.
Proof.
  unfold emit_tool_calls, closing_batch.
  destruct (push_current (currentToolCall st) (toolCallAccumulator st));
    simpl; now rewrite ?List.app_nil_r.
Qed.

(** The closing logic runs once, in the state reached at the terminal
    marker or at the end of the transport. *)
Lemma finish_process_payloads (ps : list Payload) (st : StreamState) :
  finish (process_payloads ps st) = emit_tool_calls (state_at_close ps st).
Proof.
  revert st. induction ps as [|[|data|chunk] ps IH]; intros st; simpl;
    try reflexivity; apply IH.
Qed.

Lemma process_payloads_continue (ps : list Payload) (st st' : StreamState) :
  process_payloads ps st = Continue st' -> st' = state_at_close ps st.
Proof.
  revert st. induction ps as [|[|data|chunk] ps IH]; intros st; simpl.
  - now intros [= <-].
  - discriminate.
  - apply IH.
  - apply IH.
Qed.

(** The loop is left by the end of the transport exactly when no terminal
    marker was decoded. *)
Lemma process_payloads_without_done (ps : list Payload) (st : StreamState) :
  (exists st', process_payloads ps st = Continue st') <-> ~ In Done ps.
Proof.
  revert st. induction ps as [|[|data|chunk] ps IH]; intros st; simpl.
  - split; [tauto | now eexists].
  - split; [intros (st' & H); discriminate | intros H; exfalso; apply H; now left].
  - rewrite IH. split; [intros H [H'|H']; [discriminate | tauto] | tauto].
  - rewrite IH. split; [intros H [H'|H']; [discriminate | tauto] | tauto].
Qed.

Lemma state_at_close_yielded (ps : list Payload) (st : StreamState) :
  yielded (state_at_close ps st) = (yielded st ++ map Text (decoded_texts ps))%list.
Proof.
  revert st. induction ps as [|[|data|chunk] ps IH]; intros st; simpl;
    rewrite ?List.app_nil_r; try reflexivity.
  - now rewrite IH.
  - now rewrite IH, process_chunk_yielded, List.map_app, List.app_assoc.
Qed.

(** *** Identifiers of the accumulated calls *)

Lemma ids_nonempty_app (l1 l2 : list OpenAIToolCall) :
  ids_nonempty (l1 ++ l2)%list = ids_nonempty l1 && ids_nonempty l2.
Proof.
  unfold ids_nonempty. apply forallb_app.
Qed.

Lemma push_current_ids (current : option OpenAIToolCall) (acc : list OpenAIToolCall) :
  ids_nonempty acc = true -> ids_nonempty (push_current current acc) = true.
Proof.
  intros Hacc. unfold push_current.
  destruct current as [call|]; [|exact Hacc].
  destruct (truthy (id call)) eqn:E; [|exact Hacc].
  rewrite ids_nonempty_app, Hacc. simpl. now rewrite E.
Qed.

Lemma announced_id_nonempty (d : Chunk.ToolCallDelta) (new_id : string) :
  announced_id d = Some new_id -> truthy new_id = true.
Proof.
  unfold announced_id.
  destruct (Chunk.index d) as [i|]; [|discriminate].
  destruct (Chunk.id d) as [s|]; [|discriminate].
  destruct ((i =? 0)%Z && truthy s) eqn:E; [|discriminate].
  intros [= <-]. now apply andb_true_iff in E.
Qed.

Lemma append_fragments_id (f : option Chunk.FunctionDelta) (call : OpenAIToolCall) :
  id (append_fragments f call) = id call.
Proof.
  now destruct f.
Qed.

Lemma process_tool_call_delta_ids (d : Chunk.ToolCallDelta) (st : StreamState) :
  ids_ok st -> ids_ok (process_tool_call_delta d st).
Proof.
  intros (Hacc & Hcur). unfold process_tool_call_delta, ids_ok.
  destruct (announced_id d) as [new_id|] eqn:E; cbn [currentToolCall toolCallAccumulator].
  - split; [now apply push_current_ids|].
    rewrite append_fragments_id. cbn [id]. now apply announced_id_nonempty in E.
  - destruct (currentToolCall st) as [call|] eqn:Ec; cbn [currentToolCall toolCallAccumulator].
    + split; [exact Hacc | now rewrite append_fragments_id].
    + rewrite Ec. now split.
Qed.

Lemma process_chunk_ids (chunk : Chunk.OpenAIChatCompletionResponse) (st : StreamState) :
  ids_ok st -> ids_ok (process_chunk chunk st).
Proof.
  intros Hst. unfold process_chunk.
  destruct (first_delta chunk) as [delta|]; [|exact Hst].
  set (st1 := match Chunk.content delta with
              | Some text => if truthy text then yield (Text text) st else st
              | None => st
              end).
  assert (H1 : ids_ok st1).
  { subst st1. destruct (Chunk.content delta) as [t|]; [destruct (truthy t)|]; exact Hst. }
  destruct (Chunk.tool_calls delta) as [ds|]; [|exact H1].
  clearbody st1. clear Hst. revert st1 H1.
  induction ds as [|d ds IH]; intros st1 H1; simpl; [exact H1|].
  apply IH. now apply process_tool_call_delta_ids.
Qed.

Lemma state_at_close_ids (ps : list Payload) (st : StreamState) :
  ids_ok st -> ids_ok (state_at_close ps st).
Proof.
  revert st. induction ps as [|[|data|chunk] ps IH]; intros st Hst; simpl;
    try exact Hst; apply IH; [exact Hst | now apply process_chunk_ids].
Qed.

Lemma initial_ids_ok : ids_ok initial.
Proof.
  now split.
Qed.

Lemma closing_batch_ids (st : StreamState) :
  ids_ok st -> batch_ids_nonempty (closing_batch st) = true.
Proof.
  intros (Hacc & _). unfold closing_batch.
  pose proof (push_current_ids (currentToolCall st) _ Hacc) as H.
  destruct (push_current (currentToolCall st) (toolCallAccumulator st)); [reflexivity|].
  simpl in *. now rewrite H.
Qed.

Lemma texts_ids_nonempty (texts : list string) :
  batch_ids_nonempty (map Text texts) = true.
Proof.
  induction texts; [reflexivity | exact IHtexts].
Qed.

(** The events of a run of the assembler: the decoded texts in decode
    order, then the closing batch. *)
Lemma assemble_yielded (ps : list Payload) :
  yielded (assemble ps) =
  (map Text (decoded_texts ps) ++ closing_batch (state_at_close ps initial))%list.
Proof.
  unfold assemble. rewrite finish_process_payloads.
  rewrite (proj1 (emit_tool_calls_yielded _)), state_at_close_yielded. reflexivity.
Qed.

End AssemblerFacts.

(** *** The claims about the streaming call *)

Section StreamingClaims.

Import JsString OpenAI LlamaCppClient Spec.

Variable parseChunk : string -> option Chunk.OpenAIChatCompletionResponse.

(** C1.  Streaming reconstruction: when the payloads decoded from the
    transport are the tool-call delta [{index:0, id:a, name:f}], the
    arguments fragments [{"x":] and [1}], the tool-call delta
    [{index:0, id:b, name:g}], the arguments fragment [{}] and the terminal
    marker, the streaming call yields one event and no other: the batch of
    the two completed calls, [a] before [b]. *)
Theorem C1_streaming_reconstruction (reads : list string) :
  transport_payloads parseChunk reads = reconstruction_deltas ->
  chatCompletionStream parseChunk (streaming reads) =
  Completed
    [ToolCalls [completed_call "a" "f" ("{" ++ Json.quote "x" ++ ":1}");
                completed_call "b" "g" "{}"]]
    0.
Proof.
  intros H. rewrite chatCompletionStream_assemble, H. reflexivity.
Qed.

(** C4.  Ordering: the events of a streaming call are the texts of the
    decoded chunks, in decode order, followed by at most one batch of tool
    calls; a batch, when there is one, is the last event. *)
Theorem C4_events_in_decode_order (reads : list string) :
  exists (batch : list StreamEvent) (logged : nat),
    chatCompletionStream parseChunk (streaming reads) =
      Completed
        (map Text (decoded_texts (transport_payloads parseChunk reads)) ++ batch)%list
        logged
    /\ (batch = [] \/ exists calls, batch = [ToolCalls calls]).
Proof.
  rewrite chatCompletionStream_assemble, assemble_yielded.
  eexists. eexists. split; [reflexivity|].
  unfold closing_batch.
  destruct (push_current _ _) as [|call calls]; [now left | right; now eexists].
Qed.

(** C3.  When the read loop ends because the transport closed (no terminal
    marker was decoded, so the generator has not returned) and a tool call
    is open, the closing logic enqueues that call and yields the batch as
    the last event. *)
Theorem C3_open_call_emitted_at_transport_close
  (reads : list string) (st : StreamState) (call : OpenAIToolCall) :
  read_loop parseChunk reads EmptyString initial = Continue st ->
  currentToolCall st = Some call ->
  ~ In Done (transport_payloads parseChunk reads)
  /\ chatCompletionStream parseChunk (streaming reads) =
     Completed (yielded st ++ [ToolCalls (toolCallAccumulator st ++ [call])])%list
               (warnings st).
Proof.
  intros Hloop Hopen. split.
  { apply (process_payloads_without_done _ initial).
    exists st. now rewrite <- read_loop_payloads. }
  assert (Hids : ids_ok st).
  { rewrite read_loop_payloads in Hloop.
    apply process_payloads_continue in Hloop. subst st.
    apply state_at_close_ids, initial_ids_ok. }
  unfold chatCompletionStream. cbn [ok body streaming negb].
  rewrite Hloop. cbn [finish].
  destruct Hids as (_ & Hcur). rewrite Hopen in Hcur.
  unfold emit_tool_calls, push_current. rewrite Hopen, Hcur.
  destruct (toolCallAccumulator st); reflexivity.
Qed.

(** C10.  A tool-call delta with index 0 and no identifier opens no call
    and closes none: its fragments are appended to the open call, and
    dropped when no call is open.  Every tool call of a batch event of a
    streaming call has a non-empty identifier. *)
Theorem C10_delta_without_id
  (d : Chunk.ToolCallDelta) (st : StreamState) (reads : list string) :
  Chunk.index d = Some 0%Z ->
  truthy_opt (Chunk.id d) = false ->
  process_tool_call_delta d st =
    match currentToolCall st with
    | Some call =>
        {| currentToolCall := Some (append_fragments (Chunk.function d) call);
           toolCallAccumulator := toolCallAccumulator st;
           yielded := yielded st;
           warnings := warnings st |}
    | None => st
    end
  /\ batch_ids_nonempty
       (events_of (chatCompletionStream parseChunk (streaming reads))) = true.
Proof.
  intros Hindex Hid. split.
  - unfold process_tool_call_delta, announced_id. rewrite Hindex.
    destruct (Chunk.id d) as [s|]; [|reflexivity].
    simpl in Hid. rewrite Hid. reflexivity.
  - rewrite chatCompletionStream_assemble, assemble_yielded. cbn [events_of].
    unfold batch_ids_nonempty. rewrite forallb_app.
    apply andb_true_iff. split.
    + apply texts_ids_nonempty.
    + apply closing_batch_ids, state_at_close_ids, initial_ids_ok.
Qed.

Lemma same_run_tool_call_delta (d : Chunk.ToolCallDelta) (st1 st2 : StreamState) :
  same_run st1 st2 ->
  same_run (process_tool_call_delta d st1) (process_tool_call_delta d st2).
Proof.
  intros (Hc & Ha & Hy). unfold process_tool_call_delta, same_run.
  destruct (announced_id d); cbn [currentToolCall toolCallAccumulator yielded].
  - now rewrite Hc, Ha, Hy.
  - rewrite <- Hc. destruct (currentToolCall st1) eqn:E1;
      cbn [currentToolCall toolCallAccumulator yielded]; repeat split; congruence.
Qed.

Lemma same_run_chunk (chunk : Chunk.OpenAIChatCompletionResponse) (st1 st2 : StreamState) :
  same_run st1 st2 -> same_run (process_chunk chunk st1) (process_chunk chunk st2).
Proof.
  intros H. unfold process_chunk.
  destruct (first_delta chunk) as [delta|]; [|exact H].
  set (a := match Chunk.content delta with
            | Some text => if truthy text then yield (Text text) st1 else st1
            | None => st1
            end).
  set (b := match Chunk.content delta with
            | Some text => if truthy text then yield (Text text) st2 else st2
            | None => st2
            end).
  assert (Hab : same_run a b).
  { subst a b. destruct (Chunk.content delta) as [t|]; [destruct (truthy t)|]; try exact H.
    destruct H as (Hc & Ha & Hy). unfold same_run, yield. simpl. now rewrite Hc, Ha, Hy. }
  destruct (Chunk.tool_calls delta) as [ds|]; [|exact Hab].
  clearbody a b. clear H. revert a b Hab.
  induction ds as [|d ds IH]; intros a b Hab; simpl; [exact Hab|].
  apply IH. now apply same_run_tool_call_delta.
Qed.

Lemma same_run_emit (st1 st2 : StreamState) :
  same_run st1 st2 -> same_run (emit_tool_calls st1) (emit_tool_calls st2).
Proof.
  intros (Hc & Ha & Hy). unfold emit_tool_calls, same_run. rewrite <- Hc, <- Ha.
  destruct (push_current (currentToolCall st1) (toolCallAccumulator st1));
    simpl; now rewrite Hy.
Qed.

Lemma same_step_lines (lines : list string) (st1 st2 : StreamState) :
  same_run st1 st2 ->
  same_step (process_lines parseChunk lines st1) (process_lines parseChunk lines st2).
Proof.
  revert st1 st2. induction lines as [|l lines IH]; intros st1 st2 H; [exact H|].
  cbn [process_lines]. unfold process_line.
  destruct (payload_of_line parseChunk l) as [[|data|chunk]|]; cbn [process_payload].
  - now apply same_run_emit.
  - apply IH. exact H.
  - apply IH. now apply same_run_chunk.
  - apply IH. exact H.
Qed.

Lemma same_step_finish (s1 s2 : Step) :
  same_step s1 s2 -> yielded (finish s1) = yielded (finish s2).
Proof.
  destruct s1 as [st1|st1], s2 as [st2|st2]; simpl; try contradiction.
  - now intros (_ & _ & H).
  - intros H. now apply same_run_emit in H as (_ & _ & H).
Qed.

Lemma process_lines_skip_malformed (line : string) (before after : list string)
  (st : StreamState) :
  (forall st', process_line parseChunk line st' = Continue (warn st')) ->
  yielded (finish (process_lines parseChunk (before ++ line :: after) st)) =
  yielded (finish (process_lines parseChunk (before ++ after) st)).
Proof.
  intros Hline. rewrite !process_lines_app.
  destruct (process_lines parseChunk before st) as [st'|st']; [reflexivity|].
  cbn [process_lines]. rewrite Hline.
  apply same_step_finish, same_step_lines. now repeat split.
Qed.

(** C5.  A [data: ] line whose payload is not the terminal marker and does
    not parse is discarded with one warning and the loop goes on with the
    next line: a streaming call yields the events it yields for the same
    lines without that line, and it completes without throwing. *)
Theorem C5_malformed_chunk_is_skipped (line : string) :
  startsWith (trim line) "data: " = true ->
  slice 6 (trim line) <> "[DONE]" ->
  parseChunk (slice 6 (trim line)) = None ->
  (forall st, process_line parseChunk line st = Continue (warn st))
  /\ (forall reads reads' before after,
        complete_lines reads = (before ++ line :: after)%list ->
        complete_lines reads' = (before ++ after)%list ->
        events_of (chatCompletionStream parseChunk (streaming reads)) =
        events_of (chatCompletionStream parseChunk (streaming reads')))
  /\ (forall reads, exists events logged,
        chatCompletionStream parseChunk (streaming reads) = Completed events logged).
Proof.
  intros Hdata Hdone Hparse.
  assert (Hline : forall st, process_line parseChunk line st = Continue (warn st)).
  { intros st. unfold process_line, payload_of_line, decode.
    rewrite Hdata. apply String.eqb_neq in Hdone. rewrite Hdone, Hparse. reflexivity. }
  split; [exact Hline|]. split.
  - intros reads reads' before after Hreads Hreads'.
    rewrite !chatCompletionStream_lines, Hreads, Hreads'. cbn [events_of].
    now apply process_lines_skip_malformed.
  - intros reads. rewrite chatCompletionStream_assemble. eexists. eexists. reflexivity.
Qed.

End StreamingClaims.

(** *** The claims on server text *)

Section StreamingExamples.

Import JsString OpenAI LlamaCppClient Spec.

Lemma C1_streaming_reconstruction_witness :
  let reads :=
    [ sse (start_json "a" "f") ++ sse (fragment_json ("{" ++ Json.quote "x" ++ ":"));
      sse (fragment_json "1}");
      sse (start_json "b" "g") ++ sse (fragment_json "{}") ++ sse "[DONE]" ] in
  transport_payloads ChunkReader.readChunk reads = reconstruction_deltas
  /\ chatCompletionStream ChunkReader.readChunk (streaming reads) =
     Completed
       [ToolCalls [completed_call "a" "f" ("{" ++ Json.quote "x" ++ ":1}");
                   completed_call "b" "g" "{}"]]
       0.
Proof.
  cbv zeta. split.
  - vm_compute. reflexivity.
  - apply (C1_streaming_reconstruction ChunkReader.readChunk). vm_compute. reflexivity.
Defined.

Lemma C3_open_call_emitted_at_transport_close_witness :
  let reads := [ sse (text_json "Reading the file.");
                 sse (start_json "a" "f") ++ sse (fragment_json "{}") ] in
  let st := {| currentToolCall := Some (completed_call "a" "f" "{}");
               toolCallAccumulator := [];
               yielded := [Text "Reading the file."];
               warnings := 0 |} in
  read_loop ChunkReader.readChunk reads EmptyString initial = Continue st
  /\ ~ In Done (transport_payloads ChunkReader.readChunk reads)
  /\ chatCompletionStream ChunkReader.readChunk (streaming reads) =
     Completed [Text "Reading the file."; ToolCalls [completed_call "a" "f" "{}"]] 0.
Proof.
  cbv zeta. split.
  - vm_compute. reflexivity.
  - apply (C3_open_call_emitted_at_transport_close ChunkReader.readChunk
             [ sse (text_json "Reading the file.");
               sse (start_json "a" "f") ++ sse (fragment_json "{}") ]
             {| currentToolCall := Some (completed_call "a" "f" "{}");
                toolCallAccumulator := [];
                yielded := [Text "Reading the file."];
                warnings := 0 |}
             (completed_call "a" "f" "{}")).
    + vm_compute. reflexivity.
    + reflexivity.
Defined.

Lemma C5_malformed_chunk_is_skipped_witness :
  let line := "data: {oops" in
  startsWith (trim line) "data: " = true
  /\ ChunkReader.readChunk (slice 6 (trim line)) = None
  /\ (forall st, process_line ChunkReader.readChunk line st = Continue (warn st))
  /\ (forall reads reads' before after,
        complete_lines reads = (before ++ line :: after)%list ->
        complete_lines reads' = (before ++ after)%list ->
        events_of (chatCompletionStream ChunkReader.readChunk (streaming reads)) =
        events_of (chatCompletionStream ChunkReader.readChunk (streaming reads')))
  /\ (forall reads, exists events logged,
        chatCompletionStream ChunkReader.readChunk (streaming reads) =
        Completed events logged).
Proof.
  cbv zeta. split; [reflexivity|]. split; [reflexivity|].
  apply (C5_malformed_chunk_is_skipped ChunkReader.readChunk "data: {oops").
  - reflexivity.
  - discriminate.
  - reflexivity.
Defined.

(** A malformed line between two text chunks: both texts arrive, one
    warning is logged. *)
Example malformed_line_between_texts :
  chatCompletionStream ChunkReader.readChunk
    (streaming [ sse (text_json "Hel") ++ sse "{oops"; sse (text_json "lo") ++ sse "[DONE]" ])
  = Completed [Text "Hel"; Text "lo"] 1.
Proof.
  vm_compute. reflexivity.
Qed.

Lemma C10_delta_without_id_witness :
  let d := {| Chunk.index := Some 0%Z; Chunk.id := None;
              Chunk.function := Some {| Chunk.name := Some "ile";
                                        Chunk.arguments := Some "{}" |} |} in
  let st := {| currentToolCall := Some (completed_call "a" "read_f" EmptyString);
               toolCallAccumulator := []; yielded := []; warnings := 0 |} in
  let reads := [ sse (start_json "a" "f") ++ sse "[DONE]" ] in
  process_tool_call_delta d st =
    {| currentToolCall := Some (completed_call "a" "read_file" "{}");
       toolCallAccumulator := []; yielded := []; warnings := 0 |}
  /\ batch_ids_nonempty
       (events_of (chatCompletionStream ChunkReader.readChunk (streaming reads))) = true.
Proof.
  cbv zeta.
  apply (C10_delta_without_id ChunkReader.readChunk
           {| Chunk.index := Some 0%Z; Chunk.id := None;
              Chunk.function := Some {| Chunk.name := Some "ile";
                                        Chunk.arguments := Some "{}" |} |}
           {| currentToolCall := Some (completed_call "a" "read_f" EmptyString);
              toolCallAccumulator := []; yielded := []; warnings := 0 |}
           [ sse (start_json "a" "f") ++ sse "[DONE]" ]); reflexivity.
Defined.


End StreamingExamples.

(* ================================================================= *)
(** ** Further properties of the streaming call *)

Section ReassemblyFacts.

Import JsString OpenAI LlamaCppClient Spec StreamSpec.

Lemma extended_nil (call : OpenAIToolCall) : extended call EmptyString EmptyString = call.
Proof.
  destruct call as [i t [n a]]. unfold extended. simpl.
  now rewrite !string_app_nil_r.
Qed.

Lemma extended_extended (call : OpenAIToolCall) (n1 a1 n2 a2 : string) :
  extended (extended call n1 a1) n2 a2 = extended call (n1 ++ n2) (a1 ++ a2).
Proof.
  unfold extended. simpl. now rewrite !string_app_assoc.
Qed.

Lemma append_fragments_extended (d : Chunk.ToolCallDelta) (call : OpenAIToolCall) :
  append_fragments (Chunk.function d) call =
  extended call (name_fragment d) (arguments_of d).
Proof.
  unfold name_fragment, arguments_of, append_fragments.
  destruct (Chunk.function d) as [f|]; [reflexivity|].
  now rewrite extended_nil.
Qed.

Lemma push_current_ok (current : option OpenAIToolCall) (acc : list OpenAIToolCall) :
  match current with Some call => truthy (id call) = true | None => True end ->
  push_current current acc =
  (acc ++ match current with Some call => [call] | None => [] end)%list.
Proof.
  unfold push_current. destruct current as [call|]; [|now rewrite List.app_nil_r].
  now intros ->.
Qed.

(** What the loop over the deltas has accumulated at the end is the
    reassembly of the deltas, after what was there before. *)
Lemma fold_deltas_reassembled (ds : list Chunk.ToolCallDelta) (st : StreamState) :
  ids_ok st ->
  let st' := fold_left (fun s d => process_tool_call_delta d s) ds st in
  push_current (currentToolCall st') (toolCallAccumulator st') =
  (toolCallAccumulator st ++
   match currentToolCall st with
   | Some call =>
       extended call (following_names ds) (following_arguments ds) :: reassembled ds
   | None => reassembled ds
   end)%list.
Proof.
  revert st. induction ds as [|d ds IH]; intros st Hst; cbv zeta.
  - simpl. rewrite push_current_ok by apply Hst.
    destruct (currentToolCall st); [now rewrite extended_nil | reflexivity].
  - cbn [fold_left following_names following_arguments reassembled].
    pose proof (process_tool_call_delta_ids d st Hst) as Hst1.
    specialize (IH _ Hst1). cbv zeta in IH. rewrite IH. clear IH.
    unfold process_tool_call_delta.
    destruct (announced_id d) as [new_id|] eqn:E;
      cbn [currentToolCall toolCallAccumulator].
    + rewrite push_current_ok by apply Hst.
      rewrite append_fragments_extended, extended_extended. cbn [String.append].
      unfold extended at 1. cbn [id type function name arguments String.append].
      destruct (currentToolCall st) as [call|].
      * rewrite extended_nil, <- List.app_assoc. reflexivity.
      * rewrite List.app_nil_r. reflexivity.
    + destruct (currentToolCall st) as [call|] eqn:Ec;
        cbn [currentToolCall toolCallAccumulator].
      * now rewrite append_fragments_extended, extended_extended.
      * now rewrite Ec.
Qed.

Lemma same_calls_delta (d : Chunk.ToolCallDelta) (st1 st2 : StreamState) :
  same_calls st1 st2 ->
  same_calls (process_tool_call_delta d st1) (process_tool_call_delta d st2).
Proof.
  intros (Hc & Ha). unfold process_tool_call_delta, same_calls.
  destruct (announced_id d); cbn [currentToolCall toolCallAccumulator].
  - now rewrite Hc, Ha.
  - rewrite <- Hc. destruct (currentToolCall st1) eqn:E1;
      cbn [currentToolCall toolCallAccumulator]; split; congruence.
Qed.

Lemma same_calls_deltas (ds : list Chunk.ToolCallDelta) (st1 st2 : StreamState) :
  same_calls st1 st2 ->
  same_calls (fold_left (fun s d => process_tool_call_delta d s) ds st1)
             (fold_left (fun s d => process_tool_call_delta d s) ds st2).
Proof.
  revert st1 st2. induction ds as [|d ds IH]; intros st1 st2 H; [exact H|].
  simpl. apply IH. now apply same_calls_delta.
Qed.

Lemma same_calls_chunk (chunk : Chunk.OpenAIChatCompletionResponse) (st1 st2 : StreamState) :
  same_calls st1 st2 ->
  same_calls (process_chunk chunk st1)
             (fold_left (fun s d => process_tool_call_delta d s) (chunk_deltas chunk) st2).
Proof.
  intros H. unfold process_chunk, chunk_deltas.
  destruct (first_delta chunk) as [delta|]; [|exact H].
  assert (H1 : same_calls
                 match Chunk.content delta with
                 | Some text => if truthy text then yield (Text text) st1 else st1
                 | None => st1
                 end st2).
  { destruct (Chunk.content delta) as [t|]; [destruct (truthy t)|]; exact H. }
  destruct (Chunk.tool_calls delta) as [ds|]; [|exact H1].
  now apply same_calls_deltas.
Qed.

Lemma same_calls_state_at_close (ps : list Payload) (st1 st2 : StreamState) :
  same_calls st1 st2 ->
  same_calls (state_at_close ps st1)
             (fold_left (fun s d => process_tool_call_delta d s) (decoded_deltas ps) st2).
Proof.
  revert st1 st2. induction ps as [|[|data|chunk] ps IH]; intros st1 st2 H; simpl;
    try exact H.
  - apply IH. exact H.
  - rewrite fold_left_app. apply IH. now apply same_calls_chunk.
Qed.

Lemma process_chunk_warnings (chunk : Chunk.OpenAIChatCompletionResponse) (st : StreamState) :
  warnings (process_chunk chunk st) = warnings st.
Proof.
  unfold process_chunk.
  destruct (first_delta chunk) as [delta|]; [|reflexivity].
  assert (H : warnings match Chunk.content delta with
                       | Some text => if truthy text then yield (Text text) st else st
                       | None => st
                       end = warnings st).
  { destruct (Chunk.content delta) as [t|]; [destruct (truthy t)|]; reflexivity. }
  destruct (Chunk.tool_calls delta) as [ds|]; [|exact H].
  now rewrite (proj2 (process_tool_call_deltas_yielded ds _)).
Qed.

Lemma state_at_close_warnings (ps : list Payload) (st : StreamState) :
  warnings (state_at_close ps st) = warnings st + malformed_count ps.
Proof.
  revert st. induction ps as [|[|data|chunk] ps IH]; intros st; simpl; try lia.
  - rewrite IH. simpl. lia.
  - now rewrite IH, process_chunk_warnings.
Qed.

Lemma closing_batch_reassembled (ps : list Payload) :
  closing_batch (state_at_close ps initial) = batch_of (reassembled (decoded_deltas ps)).
Proof.
  unfold closing_batch.
  destruct (same_calls_state_at_close ps initial initial (conj eq_refl eq_refl))
    as (Hc & Ha).
  rewrite Hc, Ha.
  pose proof (fold_deltas_reassembled (decoded_deltas ps) initial initial_ids_ok) as H.
  cbv zeta in H. rewrite H. cbn [initial currentToolCall toolCallAccumulator List.app].
  unfold batch_of. now destruct (reassembled (decoded_deltas ps)).
Qed.

Variable parseChunk : string -> option Chunk.OpenAIChatCompletionResponse.

(** The whole outcome of a streaming call, from the payloads decoded. *)
Lemma stream_outcome (reads : list string) :
  chatCompletionStream parseChunk (streaming reads) =
  Completed
    (map Text (decoded_texts (transport_payloads parseChunk reads)) ++
     batch_of (reassembled (decoded_deltas (transport_payloads parseChunk reads))))%list
    (malformed_count (transport_payloads parseChunk reads)).
Proof.
  rewrite chatCompletionStream_assemble, assemble_yielded, closing_batch_reassembled.
  f_equal. unfold assemble. rewrite finish_process_payloads.
  rewrite (proj2 (emit_tool_calls_yielded _)), state_at_close_warnings. reflexivity.
Qed.

(** X1.  What a streaming call delivers, in full: the texts of the decoded
    chunks in decode order; then, if a call was announced, one batch with
    one call for every delta that announces a call (index 0 and an
    identifier), in order, each with that identifier and with the
    concatenation of the name and arguments fragments from its announcement
    up to the next one, fragments before the first announcement being
    dropped; and one warning for every payload that did not parse. *)
Theorem X1_stream_reassembly (reads : list string) :
  chatCompletionStream parseChunk (streaming reads) =
  Completed
    (map Text (decoded_texts (transport_payloads parseChunk reads)) ++
     batch_of (reassembled (decoded_deltas (transport_payloads parseChunk reads))))%list
    (malformed_count (transport_payloads parseChunk reads)).
Proof.
  apply stream_outcome.
Qed.

End ReassemblyFacts.

(* ================================================================= *)
(** ** Arguments in the stream and in the translator *)

Section FallbackFacts.

Import JsString Json OpenAI ToolConversion LlamaCppClient Spec StreamSpec JsonText
       TranslatorSpec.






















End FallbackFacts.

Section TransportProperties.

Import JsString OpenAI LlamaCppClient Spec StreamSpec.

Variable parseChunk : string -> option Chunk.OpenAIChatCompletionResponse.

Lemma concat_all_app (l1 l2 : list string) :
  concat_all (l1 ++ l2) = concat_all l1 ++ concat_all l2.
Proof.
  induction l1 as [|t l1 IH]; simpl; [reflexivity|].
  now rewrite IH, string_app_assoc.
Qed.

Lemma contains_app (c : ascii) (a b : string) :
  contains c (a ++ b) = contains c a || contains c b.
Proof.
  induction a as [|x a IH]; simpl; [reflexivity|].
  now rewrite IH, orb_assoc.
Qed.

(** X2.  How the transport cuts the text into reads does not matter: two
    responses whose reads concatenate to the same text give the same
    outcome. *)
Theorem X2_reads_may_be_cut_anywhere (reads reads' : list string) :
  concat_all reads = concat_all reads' ->
  chatCompletionStream parseChunk (streaming reads) =
  chatCompletionStream parseChunk (streaming reads').
Proof.
  intros H. rewrite !chatCompletionStream_lines. unfold complete_lines. now rewrite H.
Qed.

(** X3.  The text after the last line break is never processed: a last
    read without line break changes nothing. *)
Theorem X3_unterminated_last_line_is_dropped (reads : list string) (tail : string) :
  contains newline tail = false ->
  chatCompletionStream parseChunk (streaming (reads ++ [tail])) =
  chatCompletionStream parseChunk (streaming reads).
Proof.
  intros Htail. rewrite !chatCompletionStream_lines.
  assert (E : complete_lines (reads ++ [tail]) = complete_lines reads).
  { unfold complete_lines. rewrite concat_all_app. cbn [concat_all].
    rewrite string_app_nil_r, split_app.
    rewrite (split_without_separator newline
               (last (split newline (concat_all reads)) EmptyString ++ tail)).
    - now rewrite removelast_last.
    - rewrite contains_app, last_split_no_separator, Htail. reflexivity. }
  now rewrite E.
Qed.

(** X4.  The generator returns at the terminal marker: the lines after a
    [data: [DONE]] line change nothing. *)
Theorem X4_nothing_after_the_terminal_marker
  (reads reads' : list string) (before after : list string) (line : string) :
  trim line = "data: [DONE]" ->
  complete_lines reads = (before ++ line :: after)%list ->
  complete_lines reads' = (before ++ [line])%list ->
  chatCompletionStream parseChunk (streaming reads) =
  chatCompletionStream parseChunk (streaming reads').
Proof.
  intros Hline Hreads Hreads'.
  rewrite !chatCompletionStream_lines, Hreads, Hreads', !process_lines_app.
  destruct (process_lines parseChunk before initial) as [st|st]; [reflexivity|].
  cbn [process_lines]. unfold process_line, payload_of_line. rewrite Hline.
  reflexivity.
Qed.

(** X5.  A line that is no [data: ] line (an empty line, a comment, another
    field of the event stream) is passed over without a warning: the
    outcome is that of the same lines without it. *)
Theorem X5_other_lines_are_ignored
  (reads reads' : list string) (before after : list string) (line : string) :
  startsWith (trim line) "data: " = false ->
  complete_lines reads = (before ++ line :: after)%list ->
  complete_lines reads' = (before ++ after)%list ->
  chatCompletionStream parseChunk (streaming reads) =
  chatCompletionStream parseChunk (streaming reads').
Proof.
  intros Hline Hreads Hreads'.
  rewrite !chatCompletionStream_lines, Hreads, Hreads', !process_lines_app.
  destruct (process_lines parseChunk before initial) as [st|st]; [reflexivity|].
  cbn [process_lines]. unfold process_line, payload_of_line. rewrite Hline.
  reflexivity.
Qed.

(** *** The client before tool calls *)

Lemma text_process_lines_app (l1 l2 : list string) (st : TextOnlyClient.TextState) :
  TextOnlyClient.process_lines parseChunk (l1 ++ l2) st =
  match TextOnlyClient.process_lines parseChunk l1 st with
  | TextOnlyClient.Returned st' => TextOnlyClient.Returned st'
  | TextOnlyClient.Going st' => TextOnlyClient.process_lines parseChunk l2 st'
  end.
Proof.
  revert st. induction l1 as [|l l1 IH]; intros st; simpl; [reflexivity|].
  destruct (TextOnlyClient.process_line parseChunk l st); [reflexivity | apply IH].
Qed.

Lemma text_read_loop_lines (reads : list string) (buffer : string)
  (st : TextOnlyClient.TextState) :
  contains newline buffer = false ->
  TextOnlyClient.read_loop parseChunk reads buffer st =
  TextOnlyClient.process_lines parseChunk
    (removelast (split newline (buffer ++ concat_all reads))) st.
Proof.
  revert buffer st. induction reads as [|value reads IH]; intros buffer st Hbuf.
  - simpl. rewrite string_app_nil_r, split_without_separator by exact Hbuf. reflexivity.
  - cbn [TextOnlyClient.read_loop concat_all].
    rewrite <- string_app_assoc, (split_app newline (buffer ++ value)).
    rewrite removelast_app by apply split_nonempty.
    rewrite text_process_lines_app.
    destruct (TextOnlyClient.process_lines parseChunk
                (removelast (split newline (buffer ++ value))) st)
      as [st'|st']; [reflexivity|].
    apply IH, last_split_no_separator.
Qed.

Lemma text_process_chunk (chunk : Chunk.OpenAIChatCompletionResponse)
  (st : TextOnlyClient.TextState) :
  TextOnlyClient.process_chunk chunk st =
  {| TextOnlyClient.texts := (TextOnlyClient.texts st ++ chunk_text chunk)%list;
     TextOnlyClient.logged := TextOnlyClient.logged st |}.
Proof.
  unfold TextOnlyClient.process_chunk, chunk_text. destruct st as [ts n]. simpl.
  destruct (first_delta chunk) as [delta|]; [|now rewrite List.app_nil_r].
  destruct (Chunk.content delta) as [t|]; [|now rewrite List.app_nil_r].
  destruct (truthy t); [reflexivity | now rewrite List.app_nil_r].
Qed.

Lemma text_process_lines (lines : list string) (st : TextOnlyClient.TextState) :
  match TextOnlyClient.process_lines parseChunk lines st with
  | TextOnlyClient.Returned st' | TextOnlyClient.Going st' =>
      TextOnlyClient.texts st' =
        (TextOnlyClient.texts st ++ decoded_texts (payloads_of_lines parseChunk lines))%list
      /\ TextOnlyClient.logged st' =
         TextOnlyClient.logged st + malformed_count (payloads_of_lines parseChunk lines)
  end.
Proof.
  revert st. induction lines as [|l lines IH]; intros st.
  - simpl. rewrite List.app_nil_r. split; [reflexivity | lia].
  - change (payloads_of_lines parseChunk (l :: lines))
      with (match payload_of_line parseChunk l with
            | Some p => [p]
            | None => []
            end ++ payloads_of_lines parseChunk lines)%list.
    cbn [TextOnlyClient.process_lines].
    unfold TextOnlyClient.process_line.
    destruct (payload_of_line parseChunk l) as [[|data|chunk]|];
      cbn [TextOnlyClient.process_payload List.app decoded_texts malformed_count].
    + rewrite List.app_nil_r. split; [reflexivity | lia].
    + specialize (IH {| TextOnlyClient.texts := TextOnlyClient.texts st;
                        TextOnlyClient.logged := S (TextOnlyClient.logged st) |}).
      destruct (TextOnlyClient.process_lines parseChunk lines _);
        cbn [TextOnlyClient.texts TextOnlyClient.logged] in IH;
        destruct IH as (-> & ->); (split; [reflexivity | lia]).
    + specialize (IH (TextOnlyClient.process_chunk chunk st)).
      rewrite text_process_chunk in *.
      destruct (TextOnlyClient.process_lines parseChunk lines _);
        cbn [TextOnlyClient.texts TextOnlyClient.logged] in IH;
        destruct IH as (-> & ->); rewrite List.app_assoc; (split; [reflexivity | lia]).
    + apply IH.
Qed.

(** X6.  The streaming call with tool calls yields what the streaming call
    of the client before tool calls yields, as text events in the same
    order, followed by at most one batch; both log the same warnings. *)
Theorem X6_text_events_of_the_earlier_client (reads : list string) :
  exists (texts : list string) (warned : nat) (batch : list StreamEvent),
    TextOnlyClient.chatCompletionStream parseChunk (streaming reads) =
      TextOnlyClient.TextCompleted texts warned
    /\ chatCompletionStream parseChunk (streaming reads) =
       Completed (map Text texts ++ batch)%list warned
    /\ (batch = [] \/ exists calls, batch = [ToolCalls calls]).
Proof.
  exists (decoded_texts (transport_payloads parseChunk reads)),
         (malformed_count (transport_payloads parseChunk reads)),
         (batch_of (reassembled (decoded_deltas (transport_payloads parseChunk reads)))).
  split; [|split].
  - unfold TextOnlyClient.chatCompletionStream. cbn [ok body streaming negb].
    rewrite text_read_loop_lines by reflexivity. cbn [String.append].
    pose proof (text_process_lines (complete_lines reads)
                  {| TextOnlyClient.texts := []; TextOnlyClient.logged := 0 |}) as H.
    unfold complete_lines in H. unfold transport_payloads, complete_lines.
    destruct (TextOnlyClient.process_lines parseChunk _ _) as [st|st];
      cbn [TextOnlyClient.texts TextOnlyClient.logged List.app] in H;
      destruct H as (-> & ->); reflexivity.
  - apply stream_outcome.
  - unfold batch_of. destruct (reassembled _); [now left | right; now eexists].
Qed.

End TransportProperties.

(* ================================================================= *)
(** ** Further properties of the discovery and of the single-shot call *)

Section DiscoveryProperties.

Import JsString OpenAI LlamaCppClient Spec.

(** X7.  [initialize] never changes the base URL, and it either succeeds or
    leaves the whole client as it was: a failed discovery sets no model and
    no display name. *)
Theorem X7_initialize_fails_without_a_trace (this : Client) (fetched : Thrown + ModelsResponse) :
  baseUrl (fst (initialize this fetched)) = baseUrl this
  /\ (snd (initialize this fetched) = None \/ fst (initialize this fetched) = this).
Proof.
  unfold initialize.
  destruct fetched as [e|response]; [split; [reflexivity | now right]|].
  destruct (models_ok response); cbn [negb]; [|split; [reflexivity | now right]].
  destruct (models_json response) as [e|m]; [split; [reflexivity | now right]|].
  destruct (models m) as [[|first rest]|];
    try (split; [reflexivity | now left]);
    destruct (data m) as [[|first' rest']|];
    (split; [reflexivity | (now left) || (now right)]).
Qed.

Lemma split_two_pieces (sep : ascii) (a b : string) :
  exists h x t, split sep (a ++ String sep b) = h :: x :: t.
Proof.
  induction a as [|c a (h & x & t & IH)].
  - simpl String.append. rewrite split_cons, Ascii.eqb_refl.
    pose proof (split_nonempty sep b) as Hne.
    destruct (split sep b) as [|x t]; [congruence|]. now eexists _, _, _.
  - change (String c a ++ String sep b) with (String c (a ++ String sep b)).
    rewrite split_cons, IH. destruct (Ascii.eqb c sep); now eexists _, _, _.
Qed.

(** What precedes a separator does not change the last piece. *)
Lemma last_split_app (sep : ascii) (a b : string) :
  last (split sep (a ++ String sep b)) EmptyString = last (split sep b) EmptyString.
Proof.
  induction a as [|c a IH].
  - simpl String.append. rewrite split_cons, Ascii.eqb_refl.
    pose proof (split_nonempty sep b) as Hne.
    destruct (split sep b) as [|x t]; [congruence | reflexivity].
  - change (String c a ++ String sep b) with (String c (a ++ String sep b)).
    rewrite split_cons, <- IH.
    destruct (split_two_pieces sep a b) as (h & x & t & E). rewrite E.
    destruct (Ascii.eqb c sep); reflexivity.
Qed.

(** X8.  Directories do not count: for a path [dir/stem.gguf] whose stem
    has no slash the display name is the stem, and without the extension
    the last component is kept but for one [.gguf]. *)
Theorem X8_display_name_of_a_path (dir stem : string) :
  contains "/" stem = false ->
  extractModelName (dir ++ String "/" (stem ++ ".gguf")) = stem
  /\ extractModelName (dir ++ String "/" stem) = remove_suffix ".gguf" stem.
Proof.
  intros Hstem. rewrite !extractModelName_eq, !last_split_app.
  rewrite !split_without_separator.
  - cbn [last]. split; [apply remove_suffix_app | reflexivity].
  - exact Hstem.
  - clear dir. induction stem as [|c s IH]; [reflexivity|].
    simpl in *. apply orb_false_iff in Hstem as (-> & Hs). now apply IH.
Qed.

Lemma X8_display_name_of_a_path_witness :
  contains "/" "gemma-3-27b-it.Q8_0" = false
  /\ extractModelName ("/mnt/GGUF/google" ++ String "/" ("gemma-3-27b-it.Q8_0" ++ ".gguf"))
     = "gemma-3-27b-it.Q8_0"
  /\ extractModelName ("/mnt/GGUF/google" ++ String "/" "gemma-3-27b-it.Q8_0")
     = remove_suffix ".gguf" "gemma-3-27b-it.Q8_0".
Proof.
  split; [reflexivity|].
  apply (X8_display_name_of_a_path "/mnt/GGUF/google" "gemma-3-27b-it.Q8_0").
  reflexivity.
Defined.

(** X9.  The constructor removes one trailing slash from the base URL, and
    only one. *)
Theorem X9_constructor_removes_one_slash (url : string) :
  baseUrl (constructor (url ++ "/")) = url.
Proof.
  unfold constructor. cbn [baseUrl]. apply remove_suffix_app.
Qed.

End DiscoveryProperties.

Section CompletionProperties.

Import JsString OpenAI LlamaCppClient Completion.



End CompletionProperties.

(* ================================================================= *)
(** ** Further properties of the translator and of the facade *)

Section TranslatorProperties.

Import JsString Json OpenAI ToolConversion ToolResponse Spec TranslatorSpec.



Lemma lookup_serializable (k : string) (members : list (string * json)) (v : json) :
  ChunkReader.lookup k members = Some v ->
  forallb (fun kv => serializable (snd kv)) members = true ->
  serializable v = true.
Proof.
  induction members as [|[k' v'] members IH]; simpl; [discriminate|].
  intros Hl Hall. apply andb_true_iff in Hall as (Hv' & Hall).
  destruct (String.eqb k' k); [now injection Hl as <- | now apply IH].
Qed.

Lemma response_payload_serializable (fr : Facade.FunctionResponse) :
  serializable (JObj (Facade.fr_response fr)) = true ->
  serializable (Facade.response_payload fr) = true.
Proof.
  intros H. unfold Facade.response_payload.
  destruct (ChunkReader.lookup "content" (Facade.fr_response fr)) as [v|] eqn:E;
    [|exact H].
  destruct (Json.truthy v); [|exact H].
  simpl in H. apply andb_true_iff in H as (_ & H).
  eapply lookup_serializable; eassumption.
Qed.

(** X12.  A tool result survives the wire: the [tool] message the facade
    makes of a function response whose response object is JSON-serializable
    carries the name of the function as [name] and [tool_call_id], and
    [convertToolResponseToGeminiPart] reads from it the value that was sent
    ([response.content] when it is truthy, the response object otherwise). *)
Theorem X12_tool_result_round_trip (fr : Facade.FunctionResponse) :
  serializable (JObj (Facade.fr_response fr)) = true ->
  let sent := Facade.tool_message fr in
  Message.name sent = Some (Facade.fr_name fr)
  /\ Message.tool_call_id sent = Some (Facade.fr_name fr)
  /\ convertToolResponseToGeminiPart
       {| tm_content := Some (Message.content sent); tm_name := Facade.fr_name fr |}
     = {| frp_name := Facade.fr_name fr;
          frp_response_name := Facade.fr_name fr;
          frp_response_content := Some (Facade.response_payload fr) |}.
Proof.
  intros Hser. cbv zeta. split; [reflexivity|]. split; [reflexivity|].
  unfold convertToolResponseToGeminiPart, Facade.tool_message.
  cbn [tm_content tm_name Message.content].
  now rewrite (JsonFacts.parse_stringify _ (response_payload_serializable fr Hser)).
Qed.

Lemma X12_tool_result_round_trip_witness :
  let fr := {| Facade.fr_name := "read_file";
               Facade.fr_response := [("name", JStr "read_file");
                                      ("content", JObj [("lines", JNum 3)])] |} in
  Message.name (Facade.tool_message fr) = Some "read_file"
  /\ Message.tool_call_id (Facade.tool_message fr) = Some "read_file"
  /\ convertToolResponseToGeminiPart
       {| tm_content := Some (Message.content (Facade.tool_message fr));
          tm_name := "read_file" |}
     = {| frp_name := "read_file";
          frp_response_name := "read_file";
          frp_response_content := Some (JObj [("lines", JNum 3)]) |}.
Proof.
  exact (X12_tool_result_round_trip
           {| Facade.fr_name := "read_file";
              Facade.fr_response := [("name", JStr "read_file");
                                     ("content", JObj [("lines", JNum 3)])] |}
           eq_refl).
Defined.

End TranslatorProperties.

Section FacadeProperties.

Import JsString Json OpenAI ToolConversion LlamaCppClient Message Facade Spec StreamSpec
       FacadeSpec.

Variable now : nat -> nat -> Z.

Lemma or_else_truthy (o : option string) (d : string) :
  JsString.truthy d = true -> JsString.truthy (or_else o d) = true.
Proof.
  intros Hd. unfold or_else. destruct o as [s|]; [|exact Hd].
  destruct (JsString.truthy s) eqn:E; [exact E | exact Hd].
Qed.

Lemma to_tool_call_ok (i j : nat) (fc : FunctionCall) :
  tool_call_ok (to_tool_call now i j fc) = true.
Proof.
  unfold tool_call_ok, to_tool_call. cbn [id type].
  now rewrite or_else_truthy.
Qed.

Lemma forallb_map_from {A B : Type} (P : B -> bool) (f : nat -> A -> B) (l : list A) :
  (forall j x, In x l -> P (f j x) = true) ->
  forall j, forallb P (map_from f j l) = true.
Proof.
  induction l as [|x l IH]; intros H j; [reflexivity|].
  simpl. rewrite H by now left. apply IH. intros j' y Hy. apply H. now right.
Qed.

Lemma forallb_concat_map_from {A B : Type} (P : B -> bool) (f : nat -> A -> list B)
  (l : list A) :
  (forall j x, In x l -> forallb P (f j x) = true) ->
  forall j, forallb P (List.concat (map_from f j l)) = true.
Proof.
  induction l as [|x l IH]; intros H j; [reflexivity|].
  simpl. rewrite forallb_app, H by now left. apply IH.
  intros j' y Hy. apply H. now right.
Qed.

Lemma tool_message_ok (fr : FunctionResponse) : message_ok (tool_message fr) = true.
Proof. reflexivity. Qed.

Lemma process_part_pushed_ok (st : PartsState) (part : PartUnion) :
  forallb message_ok (ps_pushed st) = true ->
  forallb message_ok (ps_pushed (process_part st part)) = true.
Proof.
  intros H. unfold process_part.
  destruct part as [s|p]; [exact H|].
  destruct (truthy_opt (text p)); [exact H|].
  destruct (functionCall p); [exact H|].
  destruct (functionResponse p); [|exact H].
  cbn [ps_pushed]. rewrite forallb_app, H. reflexivity.
Qed.

Lemma fold_parts_pushed_ok (parts : list PartUnion) (st : PartsState) :
  forallb message_ok (ps_pushed st) = true ->
  forallb message_ok (ps_pushed (fold_left process_part parts st)) = true.
Proof.
  revert st. induction parts as [|part parts IH]; intros st H; [exact H|].
  simpl. apply IH. now apply process_part_pushed_ok.
Qed.

Lemma wire_role_not_model (r : string) : String.eqb (wire_role r) "model" = false.
Proof.
  unfold wire_role. destruct (String.eqb r "model") eqn:E; [reflexivity | exact E].
Qed.

Lemma content_messages_ok (i : nat) (c : ContentUnion) :
  forallb message_ok (content_messages now i c) = true.
Proof.
  destruct c as [s|r parts|p]; cbn [content_messages].
  - reflexivity.
  - rewrite forallb_app, fold_parts_pushed_ok by reflexivity. cbn [andb].
    set (st := fold_left process_part _ _).
    destruct (JsString.truthy (trim (ps_text st))
              || match ps_functionCalls st with [] => false | _ :: _ => true end);
      [|reflexivity].
    cbn [forallb]. rewrite andb_true_r. unfold message_ok. cbn [role tool_calls].
    rewrite wire_role_not_model. cbn [negb andb].
    destruct (ps_functionCalls st) as [|fc fcs] eqn:Ecalls; [reflexivity|].
    cbn [andb]. destruct (String.eqb (wire_role r) "assistant"); [|reflexivity].
    cbn [map_from andb forallb]. rewrite to_tool_call_ok. cbn [andb].
    apply (forallb_map_from tool_call_ok). intros j x _. apply to_tool_call_ok.
  - destruct (JsString.truthy (trim (or_else (text p) EmptyString))); reflexivity.
Qed.

(** X13.  Every message the facade sends is well formed for the wire: its
    role is never the canonical [model] (rewritten to [assistant]), and tool
    calls appear only on [assistant] messages, never as an empty list, each
    with the type [function] and a non-empty identifier. *)
Theorem X13_messages_are_well_formed (contents : ContentListUnion) :
  forallb message_ok (to_messages now contents) = true.
Proof.
  unfold to_messages. apply (forallb_concat_map_from message_ok).
  intros j x _. apply content_messages_ok.
Qed.

Lemma valid_json_stringify (v : json) :
  serializable v = true -> valid_json (Json.stringify v) = true.
Proof.
  intros H. unfold valid_json. now rewrite (JsonFacts.parse_stringify v H).
Qed.

Lemma tool_message_json_ok (fr : FunctionResponse) :
  serializable (JObj (fr_response fr)) = true ->
  message_json_ok (tool_message fr) = true.
Proof.
  intros H. unfold message_json_ok, tool_message.
  cbn [tool_calls tool_call_id content andb].
  now apply valid_json_stringify, response_payload_serializable.
Qed.

Lemma process_part_json_ok (st : PartsState) (part : PartUnion) :
  part_serializable part = true ->
  calls_serializable (ps_functionCalls st) = true ->
  forallb message_json_ok (ps_pushed st) = true ->
  calls_serializable (ps_functionCalls (process_part st part)) = true
  /\ forallb message_json_ok (ps_pushed (process_part st part)) = true.
Proof.
  intros Hpart Hcalls Hpushed. unfold process_part.
  destruct part as [s|p]; [now split|].
  simpl in Hpart. apply andb_true_iff in Hpart as (Hfc & Hfr).
  destruct (truthy_opt (text p)); [now split|].
  destruct (functionCall p) as [fc|].
  - cbn [ps_functionCalls ps_pushed]. split; [|exact Hpushed].
    unfold calls_serializable in *. rewrite forallb_app, Hcalls. simpl. now rewrite Hfc.
  - destruct (functionResponse p) as [fr|]; [|now split].
    cbn [ps_functionCalls ps_pushed]. split; [exact Hcalls|].
    rewrite forallb_app, Hpushed. simpl. now rewrite tool_message_json_ok.
Qed.

Lemma fold_parts_json_ok (parts : list PartUnion) (st : PartsState) :
  forallb part_serializable parts = true ->
  calls_serializable (ps_functionCalls st) = true ->
  forallb message_json_ok (ps_pushed st) = true ->
  calls_serializable (ps_functionCalls (fold_left process_part parts st)) = true
  /\ forallb message_json_ok (ps_pushed (fold_left process_part parts st)) = true.
Proof.
  revert st. induction parts as [|part parts IH]; intros st Hparts Hcalls Hpushed;
    [now split|].
  simpl in Hparts. apply andb_true_iff in Hparts as (Hpart & Hparts).
  destruct (process_part_json_ok st part Hpart Hcalls Hpushed) as (H1 & H2).
  simpl. now apply IH.
Qed.

Lemma content_messages_json_ok (i : nat) (c : ContentUnion) :
  content_serializable c = true ->
  forallb message_json_ok (content_messages now i c) = true.
Proof.
  destruct c as [s|r parts|p]; cbn [content_messages]; intros Hc.
  - reflexivity.
  - assert (Hparts : forallb part_serializable
                       match parts with Some l => l | None => [] end = true).
    { destruct parts; [exact Hc | reflexivity]. }
    destruct (fold_parts_json_ok _
                {| ps_text := EmptyString; ps_functionCalls := []; ps_pushed := [] |}
                Hparts eq_refl eq_refl) as (Hcalls & Hpushed).
    rewrite forallb_app, Hpushed. cbn [andb].
    set (st := fold_left process_part _ _) in *.
    destruct (JsString.truthy (trim (ps_text st))
              || match ps_functionCalls st with [] => false | _ :: _ => true end);
      [|reflexivity].
    cbn [forallb]. rewrite andb_true_r. unfold message_json_ok.
    cbn [tool_calls tool_call_id]. rewrite andb_true_r.
    destruct (match ps_functionCalls st with [] => false | _ :: _ => true end
              && String.eqb (wire_role r) "assistant"); [|reflexivity].
    unfold calls_serializable in Hcalls. rewrite forallb_forall in Hcalls.
    apply (forallb_map_from
             (fun call => valid_json (arguments (function call)))).
    intros j fc Hin. cbn [to_tool_call function arguments].
    apply valid_json_stringify. now apply Hcalls.
  - destruct (JsString.truthy (trim (or_else (text p) EmptyString))); reflexivity.
Qed.

(** X14.  The facade sends valid JSON where the wire wants JSON: when the
    arguments of the function calls and the response objects of the
    function responses of a request are JSON-serializable, the arguments of
    every tool call of every message and the content of every tool result
    are valid JSON text. *)
Theorem X14_messages_carry_valid_json (contents : ContentListUnion) :
  contents_serializable contents = true ->
  forallb message_json_ok (to_messages now contents) = true.
Proof.
  intros H. unfold to_messages.
  apply (forallb_concat_map_from message_json_ok).
  intros j x Hin. apply content_messages_json_ok.
  destruct contents as [c|l]; simpl in *.
  - destruct Hin as [<-|[]]. exact H.
  - rewrite forallb_forall in H. now apply H.
Qed.

Lemma strings_from (ss : list string) (j : nat) :
  List.concat (map_from (content_messages now) j (map OfString ss)) = map user_message ss.
Proof.
  revert j. induction ss as [|s ss IH]; intros j; [reflexivity|].
  simpl. now rewrite IH.
Qed.

(** X15.  Strings are sent as they are: an array of strings gives one
    [user] message for each string, in order and untrimmed, the empty and
    the blank ones included. *)
Theorem X15_strings_become_user_messages (texts : list string) :
  to_messages now (Many (map OfString texts)) = map user_message texts.
Proof.
  apply strings_from.
Qed.

(** X16.  The streaming generator of the facade: one response with one text
    part and no finish reason for every text of the stream, in decode
    order; then, if a call was announced, one last response with the finish
    reason [TOOL_CALLS] and one function-call part for every reassembled
    call, translated by [convertOpenAIToolCallsToGemini]. *)
Theorem X16_generateContentStream_responses
  (parseChunk : string -> option Chunk.OpenAIChatCompletionResponse)
  (reads : list string) :
  generateContentStream parseChunk (streaming reads) =
  inr (map (fun t => {| response_parts := [TextPart t]; finishReason := None |})
           (decoded_texts (transport_payloads parseChunk reads))
       ++ match reassembled (decoded_deltas (transport_payloads parseChunk reads)) with
          | [] => []
          | call :: calls =>
              [ {| response_parts :=
                     map FunctionCallPart (convertOpenAIToolCallsToGemini (call :: calls));
                   finishReason := Some "TOOL_CALLS" |} ]
          end)%list.
Proof.
  unfold generateContentStream. rewrite stream_outcome.
  rewrite List.map_app, List.map_map. f_equal. f_equal.
  unfold batch_of. now destruct (reassembled _).
Qed.

End FacadeProperties.

Section TokenProperties.

Import JsString ContentGenerator Spec.

Lemma tokens_of_list (l : list ContentUnion) :
  totalTokens (countTokens {| contents := Many l |}) =
  (sum (map characters l) + sum (map separators l) + 3) / 4.
Proof.
  unfold countTokens. cbn [totalTokens contents].
  rewrite contentText_length, ceil_quarter_spec. reflexivity.
Qed.

Lemma separators_positive (c : ContentUnion) : 1 <= separators c.
Proof.
  pose proof (content_text_length c) as H.
  rewrite string_length_app in H. simpl String.length in H.
  destruct c as [s|r [parts|]|p]; simpl in *; lia.
Qed.

Lemma sum_app (l1 l2 : list nat) : sum (l1 ++ l2) = sum l1 + sum l2.
Proof.
  induction l1 as [|n l1 IH]; simpl; [reflexivity|]. rewrite IH. lia.
Qed.

Lemma tokens_positive (c : ContentUnion) (l : list ContentUnion) :
  1 <= totalTokens (countTokens {| contents := Many (c :: l) |}).
Proof.
  rewrite tokens_of_list. unfold sum. cbn [map fold_right].
  pose proof (separators_positive c) as Hc.
  apply Nat.div_le_lower_bound; lia.
Qed.

(** X17.  The estimate is zero for the empty array only: the space added
    after every element makes a request with at least one element count at
    least one token, whatever its texts are. *)
Theorem X17_no_tokens_for_the_empty_array_only (request : CountTokensParameters) :
  totalTokens (countTokens request) = 0 <-> contents request = Many [].
Proof.
  destruct request as [[c|l]].
  - split; [|discriminate]. intros H. exfalso.
    change (totalTokens (countTokens {| contents := Many [c] |}) = 0) in H.
    pose proof (tokens_positive c []). lia.
  - destruct l as [|c l]; [split; reflexivity|].
    split; [|discriminate]. intros H. exfalso.
    pose proof (tokens_positive c l). lia.
Qed.

(** X18.  Counting in pieces never undercounts: the estimate of a request
    made of two arrays of contents is at least the estimate of the first
    and at most the sum of the two estimates. *)
Theorem X18_counting_in_pieces (l1 l2 : list ContentUnion) :
  totalTokens (countTokens {| contents := Many l1 |})
  <= totalTokens (countTokens {| contents := Many (l1 ++ l2) |})
  /\ totalTokens (countTokens {| contents := Many (l1 ++ l2) |})
     <= totalTokens (countTokens {| contents := Many l1 |})
        + totalTokens (countTokens {| contents := Many l2 |}).
Proof.
  rewrite !tokens_of_list, !List.map_app, !sum_app.
  set (a := sum (map characters l1) + sum (map separators l1)).
  set (b := sum (map characters l2) + sum (map separators l2)).
  replace (sum (map characters l1) + sum (map characters l2)
           + (sum (map separators l1) + sum (map separators l2)) + 3)
    with (a + b + 3) by (unfold a, b; lia).
  pose proof (Nat.div_mod_eq (a + 3) 4) as Ha.
  pose proof (Nat.mod_upper_bound (a + 3) 4 ltac:(lia)) as Ha'.
  pose proof (Nat.div_mod_eq (b + 3) 4) as Hb.
  pose proof (Nat.mod_upper_bound (b + 3) 4 ltac:(lia)) as Hb'.
  pose proof (Nat.div_mod_eq (a + b + 3) 4) as Hab.
  pose proof (Nat.mod_upper_bound (a + b + 3) 4 ltac:(lia)) as Hab'.
  split; lia.
Qed.

End TokenProperties.

Section AuthProperties.

Import JsString LlamaCppClient Auth.

(** X19.  The check of the dialog accepts one method only: it returns no
    error exactly for [llamacpp-server] with [LLAMACPP_BASE_URL] set to a
    non-empty value. *)
Theorem X19_validateAuthMethod_accepts (LLAMACPP_BASE_URL : option string)
  (authMethod : string) :
  validateAuthMethod LLAMACPP_BASE_URL authMethod = None
  <-> authMethod = "llamacpp-server" /\ truthy_opt LLAMACPP_BASE_URL = true.
Proof.
  unfold validateAuthMethod. cbn [value].
  destruct (String.eqb_spec authMethod "llamacpp-server") as [E|E].
  - destruct (truthy_opt LLAMACPP_BASE_URL); cbn [negb]; split;
      try discriminate; try (intros [_ H]; discriminate); auto.
  - repeat match goal with
           | |- context [String.eqb authMethod ?s] => destruct (String.eqb authMethod s)
           end; split; try discriminate; intros [H _]; contradiction.
Qed.

(** X20.  The configuration agrees with the check of the dialog: it is
    created exactly when the check accepts the method (the method left out
    counting as [llamacpp-server]), and then it names the llama.cpp
    authentication, holds the base URL of the environment and a non-empty
    model name. *)
Theorem X20_configuration_agrees_with_validation
  (LLAMACPP_BASE_URL model0 : option string) (authType0 : option AuthType)
  (getModel : option string) :
  let method := match authType0 with Some a => a | None => USE_LLAMACPP_SERVER end in
  match createContentGeneratorConfig LLAMACPP_BASE_URL model0 authType0 getModel with
  | inr config =>
      validateAuthMethod LLAMACPP_BASE_URL (value method) = None
      /\ authType config = Some USE_LLAMACPP_SERVER
      /\ llamacppBaseUrl config = LLAMACPP_BASE_URL
      /\ truthy (model config) = true
  | inl _ => validateAuthMethod LLAMACPP_BASE_URL (value method) <> None
  end.
Proof.
  cbv zeta. unfold createContentGeneratorConfig.
  set (method := match authType0 with Some a => a | None => USE_LLAMACPP_SERVER end).
  destruct method; cbn [auth_eqb value String.eqb Ascii.eqb Bool.eqb];
    try (unfold validateAuthMethod; cbn; discriminate).
  unfold validateAuthMethod. cbn [value]. rewrite String.eqb_refl.
  destruct (truthy_opt LLAMACPP_BASE_URL); cbn [negb]; [|discriminate].
  repeat split. cbn [model].
  unfold or_else. destruct getModel as [g|].
  - destruct (truthy g) eqn:Eg; [exact Eg|].
    destruct model0 as [m|]; [|reflexivity].
    destruct (truthy m) eqn:Em; [exact Em | reflexivity].
  - destruct model0 as [m|]; [|reflexivity].
    destruct (truthy m) eqn:Em; [exact Em | reflexivity].
Qed.

(** X21.  A configuration made by [createContentGeneratorConfig] is never
    refused by [createContentGenerator]: the generator is created exactly
    when the client for the base URL of the environment initializes, its
    error is the error of [initialize] otherwise, and the model of the
    configuration becomes the display name of the client. *)
Theorem X21_generator_of_a_created_configuration
  (LLAMACPP_BASE_URL model0 : option string) (authType0 : option AuthType)
  (getModel : option string) (config : ContentGeneratorConfig)
  (fetched : Thrown + ModelsResponse) :
  createContentGeneratorConfig LLAMACPP_BASE_URL model0 authType0 getModel = inr config ->
  exists url,
    LLAMACPP_BASE_URL = Some url
    /\ createContentGenerator config fetched =
       match initialize (constructor url) fetched with
       | (client, None) =>
           inr ({| model := displayName client;
                   apiKey := None;
                   vertexai := None;
                   authType := Some USE_LLAMACPP_SERVER;
                   llamacppBaseUrl := Some url |}, client)
       | (_, Some e) => inl e
       end.
Proof.
  unfold createContentGeneratorConfig.
  set (method := match authType0 with Some a => a | None => USE_LLAMACPP_SERVER end).
  destruct method; cbn [auth_eqb value String.eqb Ascii.eqb Bool.eqb]; try discriminate.
  destruct LLAMACPP_BASE_URL as [url|]; cbn [truthy_opt negb]; [|discriminate].
  destruct (truthy url) eqn:Hurl; cbn [negb]; [|discriminate].
  intros H. injection H as <-. exists url. split; [reflexivity|].
  unfold createContentGenerator. cbn [authType llamacppBaseUrl apiKey vertexai].
  change (auth_eqb USE_LLAMACPP_SERVER USE_LLAMACPP_SERVER) with true.
  rewrite Hurl. cbn [andb]. reflexivity.
Qed.

End AuthProperties.

Section GenerateProperties.

Import JsString Json OpenAI ToolConversion LlamaCppClient Facade Spec StreamSpec
       FacadeSpec Generate GenerateSpec TranslatorSpec.

Variable parseChunk : string -> option Chunk.OpenAIChatCompletionResponse.

Lemma or_else_some_empty (s : string) : or_else (Some s) EmptyString = s.
Proof.
  unfold or_else. destruct s; reflexivity.
Qed.

Lemma whole_call_announces (indexed : Z * OpenAIToolCall) :
  fst indexed = 0%Z ->
  JsString.truthy (id (snd indexed)) = true ->
  announced_id (whole_call indexed) = Some (id (snd indexed)).
Proof.
  intros Hindex H. unfold announced_id, whole_call. cbn [Chunk.index Chunk.id].
  now rewrite Hindex, H.
Qed.

Lemma following_whole_calls (indexed : list (Z * OpenAIToolCall)) :
  all_index_zero indexed = true ->
  forallb tool_call_ok (map snd indexed) = true ->
  following_names (map whole_call indexed) = EmptyString
  /\ following_arguments (map whole_call indexed) = EmptyString.
Proof.
  destruct indexed as [|ic indexed]; [now split|].
  unfold all_index_zero. cbn [forallb map following_names following_arguments].
  intros Hzero H.
  apply andb_true_iff in Hzero as (Hzero & _). apply Z.eqb_eq in Hzero.
  apply andb_true_iff in H as (H & _). apply andb_true_iff in H as (H & _).
  now rewrite whole_call_announces.
Qed.

Lemma reassembled_whole_calls (indexed : list (Z * OpenAIToolCall)) :
  all_index_zero indexed = true ->
  forallb tool_call_ok (map snd indexed) = true ->
  reassembled (map whole_call indexed) = map snd indexed.
Proof.
  induction indexed as [|ic indexed IH]; [reflexivity|].
  intros Hzero H. unfold all_index_zero in *. cbn [forallb map] in Hzero, H.
  apply andb_true_iff in Hzero as (Hz & Hzero). apply Z.eqb_eq in Hz.
  apply andb_true_iff in H as (Hcall & Hcalls).
  destruct (following_whole_calls indexed Hzero Hcalls) as (Hn & Ha).
  apply andb_true_iff in Hcall as (Hid & Htype). apply String.eqb_eq in Htype.
  cbn [map reassembled]. rewrite whole_call_announces by assumption.
  rewrite Hn, Ha, IH by assumption. f_equal.
  unfold name_fragment, arguments_of, whole_call.
  cbn [Chunk.function Chunk.name Chunk.arguments].
  rewrite !or_else_some_empty, !string_app_nil_r.
  destruct ic as [index [i t [n a]]]. cbn in *. now subst t.
Qed.

Lemma message_payloads_texts (text : string) (indexed : list (Z * OpenAIToolCall)) :
  decoded_texts (message_payloads text indexed) =
  if JsString.truthy text then [text] else [].
Proof.
  unfold message_payloads, content_chunk. cbn [decoded_texts].
  assert (H : decoded_texts
                (map (fun ic => tool_call_chunk (whole_call ic)) indexed ++ [Done]) = []).
  { induction indexed as [|ic indexed IH]; [reflexivity|]. cbn. exact IH. }
  rewrite H, List.app_nil_r. reflexivity.
Qed.

Lemma message_payloads_deltas (text : string) (indexed : list (Z * OpenAIToolCall)) :
  decoded_deltas (message_payloads text indexed) = map whole_call indexed.
Proof.
  unfold message_payloads, content_chunk. cbn [decoded_deltas].
  change (chunk_deltas _) with (@nil Chunk.ToolCallDelta). cbn [List.app].
  induction indexed as [|ic indexed IH]; [reflexivity|]. cbn. now rewrite <- IH.
Qed.

(** X22.  Streaming delivers what the single-shot call delivers, for a
    server that gives every tool-call delta the index 0.  When the server
    streams a message in the plainest way (its content in one chunk, one
    complete delta for every tool call, the terminal marker), every delta
    carries the index 0 and every tool call has an identifier and the type
    [function], the parts of the responses of [generateContentStream], taken
    together, are the parts of the response [generateContent] builds for
    that message.  A delta with another index starts no call. *)
Theorem X22_streaming_delivers_the_single_shot_parts
  (reads : list string) (response : Completion.LlamaCppResponse)
  (indexed : list (Z * OpenAIToolCall)) :
  calls_of response = map snd indexed ->
  all_index_zero indexed = true ->
  forallb tool_call_ok (calls_of response) = true ->
  transport_payloads parseChunk reads =
    message_payloads (Completion.content response) indexed ->
  exists responses,
    generateContentStream parseChunk (streaming reads) = inr responses
    /\ List.concat (map response_parts responses) = candidate_parts (response_of response).
Proof.
  intros Hcalls Hzero Hok Hreads. unfold generateContentStream.
  rewrite stream_outcome, Hreads.
  rewrite message_payloads_texts, message_payloads_deltas.
  rewrite Hcalls in Hok. rewrite reassembled_whole_calls by assumption.
  rewrite <- Hcalls.
  eexists. split; [reflexivity|].
  rewrite !List.map_app, List.concat_app. unfold response_of. cbn [candidate_parts].
  f_equal.
  - destruct (JsString.truthy (Completion.content response)); reflexivity.
  - unfold calls_of. destruct (Completion.tool_calls response) as [[|call calls]|];
      cbn; try reflexivity. now rewrite List.app_nil_r.
Qed.

Variable now : nat -> nat -> Z.





End GenerateProperties.

(* ================================================================= *)
(** ** The further properties on server text *)

Section FurtherExamples.

Import JsString Json OpenAI ToolConversion LlamaCppClient Spec StreamSpec.

Lemma X2_reads_may_be_cut_anywhere_witness :
  let reads := [ sse (text_json "Hel") ++ sse (text_json "lo") ++ sse "[DONE]" ] in
  let reads' := [ "da"; "ta: " ++ text_json "Hel"; String newline "data: ";
                  text_json "lo" ++ String newline "data: [DO"; "NE]";
                  String newline EmptyString ] in
  concat_all reads = concat_all reads'
  /\ chatCompletionStream ChunkReader.readChunk (streaming reads) =
     chatCompletionStream ChunkReader.readChunk (streaming reads').
Proof.
  cbv zeta. split; [vm_compute; reflexivity|].
  apply (X2_reads_may_be_cut_anywhere ChunkReader.readChunk). vm_compute. reflexivity.
Defined.

Lemma X3_unterminated_last_line_is_dropped_witness :
  let reads := [ sse (text_json "Hi") ] in
  let tail := "data: " ++ text_json "lost" in
  contains newline tail = false
  /\ chatCompletionStream ChunkReader.readChunk (streaming (reads ++ [tail])) =
     chatCompletionStream ChunkReader.readChunk (streaming reads).
Proof.
  cbv zeta. split; [vm_compute; reflexivity|].
  apply (X3_unterminated_last_line_is_dropped ChunkReader.readChunk).
  vm_compute. reflexivity.
Defined.

Lemma X4_nothing_after_the_terminal_marker_witness :
  let reads := [ sse (text_json "Hi") ++ sse "[DONE]"; sse (text_json "late") ] in
  let reads' := [ sse (text_json "Hi") ++ sse "[DONE]" ] in
  chatCompletionStream ChunkReader.readChunk (streaming reads) =
  chatCompletionStream ChunkReader.readChunk (streaming reads').
Proof.
  cbv zeta.
  apply (X4_nothing_after_the_terminal_marker ChunkReader.readChunk
           [ sse (text_json "Hi") ++ sse "[DONE]"; sse (text_json "late") ]
           [ sse (text_json "Hi") ++ sse "[DONE]" ]
           [ "data: " ++ text_json "Hi" ] [ "data: " ++ text_json "late" ]
           "data: [DONE]").
  - reflexivity.
  - vm_compute. reflexivity.
  - vm_compute. reflexivity.
Defined.

Lemma X5_other_lines_are_ignored_witness :
  let keep_alive := ": keep-alive" in
  let reads := [ sse (text_json "Hi") ++ keep_alive ++ String newline (sse "[DONE]") ] in
  let reads' := [ sse (text_json "Hi") ++ sse "[DONE]" ] in
  startsWith (trim keep_alive) "data: " = false
  /\ chatCompletionStream ChunkReader.readChunk (streaming reads) =
     chatCompletionStream ChunkReader.readChunk (streaming reads').
Proof.
  cbv zeta. split; [reflexivity|].
  apply (X5_other_lines_are_ignored ChunkReader.readChunk
           [ sse (text_json "Hi") ++ ": keep-alive" ++ String newline (sse "[DONE]") ]
           [ sse (text_json "Hi") ++ sse "[DONE]" ]
           [ "data: " ++ text_json "Hi" ] [ "data: [DONE]" ]
           ": keep-alive").
  - reflexivity.
  - vm_compute. reflexivity.
  - vm_compute. reflexivity.
Defined.

Lemma X14_messages_carry_valid_json_witness :
  let contents :=
    Facade.Many
      [ Facade.OfString "Read the file.";
        Facade.OfContent "model"
          (Some [ Facade.ObjectPart
                    {| Facade.text := None;
                       Facade.functionCall :=
                         Some {| fc_id := None; fc_name := "read_file";
                                 fc_args := Some (JObj [("path", JStr "a.txt")]) |};
                       Facade.functionResponse := None |} ]);
        Facade.OfContent "user"
          (Some [ Facade.ObjectPart
                    {| Facade.text := None;
                       Facade.functionCall := None;
                       Facade.functionResponse :=
                         Some {| Facade.fr_name := "read_file";
                                 Facade.fr_response := [("content", JStr "hello")] |} |} ]) ] in
  FacadeSpec.contents_serializable contents = true
  /\ forallb FacadeSpec.message_json_ok (Facade.to_messages (fun _ _ => 1700000000000%Z) contents)
     = true.
Proof.
  cbv zeta. split; [reflexivity|].
  apply (X14_messages_carry_valid_json (fun _ _ => 1700000000000%Z)). reflexivity.
Defined.

Lemma X21_generator_of_a_created_configuration_witness :
  let fetched :=
    inr {| models_ok := true; models_status := 200%Z; models_statusText := "OK";
           models_json :=
             inr {| models := Some [ {| model_name := "/models/gemma-3-27b-it.Q8_0.gguf" |} ];
                    data := None |} |} in
  let config := {| Auth.model := "auto-detect"; Auth.apiKey := None; Auth.vertexai := None;
                   Auth.authType := Some Auth.USE_LLAMACPP_SERVER;
                   Auth.llamacppBaseUrl := Some "http://localhost:8080/" |} in
  Auth.createContentGeneratorConfig (Some "http://localhost:8080/") None None None = inr config
  /\ exists url,
       Some "http://localhost:8080/" = Some url
       /\ Auth.createContentGenerator config fetched =
          match initialize (constructor url) fetched with
          | (client, None) =>
              inr ({| Auth.model := displayName client;
                      Auth.apiKey := None;
                      Auth.vertexai := None;
                      Auth.authType := Some Auth.USE_LLAMACPP_SERVER;
                      Auth.llamacppBaseUrl := Some url |}, client)
          | (_, Some e) => inl e
          end.
Proof.
  cbv zeta. split; [reflexivity|].
  apply (X21_generator_of_a_created_configuration
           (Some "http://localhost:8080/") None None None). reflexivity.
Defined.

Lemma X22_streaming_delivers_the_single_shot_parts_witness :
  let arguments := Json.stringify (JObj [("path", JStr "a.txt")]) in
  let call := completed_call "call_1" "read_file" arguments in
  let response :=
    {| Completion.content := "Reading the file.";
       Completion.model := "gemma";
       Completion.tool_calls := Some [call];
       Completion.usage := None |} in
  let reads :=
    [ sse (text_json "Reading the file.");
      sse (GenerateSpec.whole_call_json 0 "call_1" "read_file" arguments) ++ sse "[DONE]" ] in
  transport_payloads ChunkReader.readChunk reads =
    GenerateSpec.message_payloads "Reading the file." [ (0%Z, call) ]
  /\ exists responses,
       Facade.generateContentStream ChunkReader.readChunk (streaming reads) = inr responses
       /\ List.concat (map Facade.response_parts responses) =
          Generate.candidate_parts (Generate.response_of response).
Proof.
  cbv zeta. split; [vm_compute; reflexivity|].
  apply (X22_streaming_delivers_the_single_shot_parts ChunkReader.readChunk _ _
           [ (0%Z, completed_call "call_1" "read_file"
                     (Json.stringify (JObj [("path", JStr "a.txt")]))) ]).
  - reflexivity.
  - reflexivity.
  - reflexivity.
  - vm_compute. reflexivity.
Defined.

(** The index matters: a server that numbers two calls 0 and 1 gets them
    back as one, the second appended to the first. *)
Example second_index_is_appended :
  chatCompletionStream ChunkReader.readChunk
    (streaming [ sse (GenerateSpec.whole_call_json 0 "a" "f" "{}");
                 sse (GenerateSpec.whole_call_json 1 "b" "g" "{}") ++ sse "[DONE]" ])
  = Completed [ToolCalls [completed_call "a" "fg" "{}{}"]] 0.
Proof.
  vm_compute. reflexivity.
Qed.


End FurtherExamples.
